(** * pkg/imagestream/imagestream.go: the image-stream resolution layer

    A shallow embedding of the [imageStream] methods of
    [pkg/imagestream/imagestream.go] and the properties its specification
    states about them.

    Go values are modelled as follows.
    - [string], [digest.Digest] (a named string type): [string].
    - [map[string]T]: [gmap string T]; a [range] over a map visits the
      entries in an order the language leaves open, see [GoRuntime].
    - slices: [list].
    - a pair [(value, error)] of results: [result], one of [Ok v], [Err e].
    - [*imageapiv1.Image]: an address into the [heap] of the [World]; the
      other pointers of the file are only read and are modelled by value.
    - calls to the cluster control plane, the two caches and the heap are
      threaded through the state monad [M]; a nil dereference ends a run
      with [Panicked]. *)

From stdpp Require Import gmap strings list fin_maps.
From Stdlib Require Import ZArith Ascii String.

Local Open Scope string_scope.
Local Open Scope Z_scope.
Local Open Scope list_scope.

(** ** Results of fallible calls *)

Inductive result (A E : Type) : Type :=
| Ok (a : A)
| Err (e : E).
Arguments Ok {A E} a.
Arguments Err {A E} e.

Definition isOk {A E} (r : result A E) : bool :=
  match r with Ok _ => true | Err _ => false end.

(** ** k8s.io/apimachinery/pkg/apis/meta/v1 *)

Module ObjectMeta.
Record t := Build {
  Name : string;
  Namespace : string;
  Annotations : gmap string string
}.
Definition empty : t := Build "" "" ∅.
End ObjectMeta.

Module StatusDetails.
Record t := Build {
  Name : string;
  Kind : string
}.
End StatusDetails.

Module Status.
(** [Details] is a pointer in the source, nil when the server sent none. *)
Record t := Build {
  Message : string;
  Reason : string;
  Details : option StatusDetails.t;
  Code : Z
}.
End Status.

(** ** github.com/openshift/api/image/v1 *)

Module ImageLayer.
Record t := Build {
  Name : string;
  LayerSize : Z;
  MediaType : string
}.
End ImageLayer.

Module Image.
Record t := Build {
  ObjectMeta : ObjectMeta.t;
  DockerImageReference : string;
  DockerImageMetadataVersion : string;
  DockerImageManifest : string;
  DockerImageLayers : list ImageLayer.t;
  DockerImageManifestMediaType : string;
  DockerImageConfig : string
}.

(** The assignment [img.DockerImageReference = ref] on a struct value. *)
Definition set_DockerImageReference (ref : string) (img : t) : t :=
  Build (ObjectMeta img) ref (DockerImageMetadataVersion img)
        (DockerImageManifest img) (DockerImageLayers img)
        (DockerImageManifestMediaType img) (DockerImageConfig img).
End Image.

Module TagEvent.
Record t := Build {
  Created : Z;
  DockerImageReference : string;
  Image : string;
  Generation : Z
}.
End TagEvent.

Module NamedTagEventList.
Record t := Build {
  Tag : string;
  Items : list TagEvent.t
}.
End NamedTagEventList.

Module TagImportPolicy.
Record t := Build {
  Insecure : bool;
  Scheduled : bool
}.
End TagImportPolicy.

Module TagReference.
Record t := Build {
  Name : string;
  ImportPolicy : TagImportPolicy.t
}.
End TagReference.

Module ImageStreamSpec.
Record t := Build {
  DockerImageRepository : string;
  Tags : list TagReference.t
}.
Definition empty : t := Build "" [].
End ImageStreamSpec.

Module ImageStreamStatus.
Record t := Build {
  DockerImageRepository : string;
  PublicDockerImageRepository : string;
  Tags : list NamedTagEventList.t
}.
Definition empty : t := Build "" "" [].
End ImageStreamStatus.

Module ImageStream.
Record t := Build {
  ObjectMeta : ObjectMeta.t;
  Spec : ImageStreamSpec.t;
  Status : ImageStreamStatus.t
}.

(** [&imageapiv1.ImageStream{}], the zero value. *)
Definition empty : t :=
  Build ObjectMeta.empty ImageStreamSpec.empty ImageStreamStatus.empty.

(** The assignment [stream.Name = name] (a field of the embedded
    [ObjectMeta]). *)
Definition set_Name (name : string) (s : t) : t :=
  Build (ObjectMeta.Build name (ObjectMeta.Namespace (ObjectMeta s))
                          (ObjectMeta.Annotations (ObjectMeta s)))
        (Spec s) (Status s).
End ImageStream.

Module ImageBlobReferences.
Record t := Build {
  ImageMissing : bool;
  Layers : list string;
  Config : option string;
  Manifests : list string
}.
End ImageBlobReferences.

Module ImageStreamLayers.
Record t := Build {
  ObjectMeta : ObjectMeta.t;
  Images : gmap string ImageBlobReferences.t
}.
End ImageStreamLayers.

Module ImageStreamMapping.
Record t := Build {
  ObjectMeta : ObjectMeta.t;
  Image : Image.t;
  Tag : string
}.
End ImageStreamMapping.

(** ** github.com/openshift/library-go/pkg/image/reference *)

Module DockerImageReference.
Record t := Build {
  Registry : string;
  Namespace : string;
  Name : string;
  Tag : string;
  ID : string
}.
Definition empty : t := Build "" "" "" "" "".

Definition set_Tag (tag : string) (r : t) : t :=
  Build (Registry r) (Namespace r) (Name r) tag (ID r).
Definition set_ID (id : string) (r : t) : t :=
  Build (Registry r) (Namespace r) (Name r) (Tag r) id.
End DockerImageReference.

(** ** Go errors *)

(** The values of the interface type [error] that reach this file: a
    [kerrors.StatusError], a registry error (an [rerrors.Error] handed on as
    the cause of another), or any other error value. *)
#[local] Set Warnings "-register-all".
Inductive error : Type :=
| StatusError (ErrStatus : Status.t)
| registryError (code message : string) (cause : option error)
| errorString (s : string).

(** Modelled from the spec: [pkg/errors] ([rerrors]) is not among the
    sources. An error of the taxonomy of section 7 carries a code, an
    operation-specific message and the error it wraps; [NewError] builds it
    and [Code] reads the code. *)
Module rerrors.
Record Error := NewError {
  Code : string;
  Message : string;
  Err : option error
}.

(** An [rerrors.Error] passed where an [error] is expected. *)
Definition as_error (e : Error) : error :=
  registryError (Code e) (Message e) (Err e).
End rerrors.

(** The type assertion of [err] to a pointer to [kerrors.StatusError]. *)
Definition asStatusError (err : error) : option Status.t :=
  match err with
  | StatusError s => Some s
  | _ => None
  end.

(** ** Error codes (the [const] block of the file) *)

Definition ErrImageStreamCode : string := "ImageStream:".
Definition ErrImageStreamUnknownErrorCode : string := ErrImageStreamCode +:+ "Unknown".
Definition ErrImageStreamNotFoundCode : string := ErrImageStreamCode +:+ "NotFound".
Definition ErrImageStreamImageNotFoundCode : string := ErrImageStreamCode +:+ "ImageNotFound".
Definition ErrImageStreamForbiddenCode : string := ErrImageStreamCode +:+ "Forbidden".

Definition StatusNotFound : Z := 404.

(** ** Functions of other packages

    The file calls into libraries that are not part of it. Their results are
    taken as they come: the properties below hold for every behaviour of
    these functions. *)

(** k8s.io/apimachinery/pkg/api/errors and
    github.com/openshift/library-go/pkg/quota/quotautil: the tests on
    errors, given here on the errors that are not nil. On nil every one of
    them answers false; the embedding below applies them only where the
    error at hand is not nil and takes the nil case as false. *)
Class KErrors := {
  IsNotFound : error → bool;
  IsAlreadyExists : error → bool;
  IsConflict : error → bool;
  IsForbidden : error → bool;
  IsUnauthorized : error → bool;
  IsErrorQuotaExceeded : error → bool
}.

(** github.com/openshift/library-go/pkg/image/reference,
    github.com/opencontainers/go-digest and the annotation key
    [imageapiv1.InsecureRepositoryAnnotation]. *)
Class Libraries := {
  reference_Parse : string → result DockerImageReference.t error;
  reference_String : DockerImageReference.t → string;
  digest_Parse : string → result string error;
  InsecureRepositoryAnnotation : string
}.

(** pkg/origin-common/util: the two searches of a stream's tag history. *)
Class OriginUtil := {
  util_ResolveImageID : ImageStream.t → string → result TagEvent.t error;
  util_LatestImageTagEvent : ImageStream.t → string → string * option TagEvent.t
}.

(** The codes of the image-stream getter's errors, constants declared next
    to the getter. *)
Class GetterCodes := {
  ErrImageStreamGetterNotFoundCode : string;
  ErrImageStreamGetterForbiddenCode : string;
  ErrImageStreamGetterUnknownCode : string
}.

(** The order in which [for k, v := range m] visits a map is not fixed by
    Go: [range_Images m] is the order of one run, some arrangement of the
    entries of [m]. *)
Class GoRuntime := {
  range_Images :
    gmap string ImageBlobReferences.t → list (string * ImageBlobReferences.t);
  range_Images_perm : ∀ m, range_Images m ≡ₚ map_to_list m
}.

(** [strings.HasPrefix(s, prefix)]. *)
Fixpoint strings_HasPrefix (s prefix : string) : bool :=
  match prefix, s with
  | EmptyString, _ => true
  | String a prefix', String b s' =>
    if Ascii.eqb a b then strings_HasPrefix s' prefix' else false
  | String _ _, EmptyString => false
  end.

(** [strings.ToLower], on the ASCII letters. Its one use compares the result
    with ["namespaces"]: the letters outside ASCII that [strings.ToLower]
    maps as well are mapped to none of the letters of this word, so the
    comparison comes out the same. *)
Definition lower_ascii (c : ascii) : ascii :=
  let n := nat_of_ascii c in
  if (Nat.leb 65 n && Nat.leb n 90)%bool then ascii_of_nat (n + 32) else c.

Fixpoint strings_ToLower (s : string) : string :=
  match s with
  | EmptyString => EmptyString
  | String c rest => String (lower_ascii c) (strings_ToLower rest)
  end.

(** ** The control plane and the state of one request *)

(** A request to the control plane together with its answer. *)
Inductive Call : Type :=
| CallImagesGet (name : string) (r : result Image.t error)
| CallImageStreamsGet (namespace name : string) (r : result ImageStream.t error)
| CallImageStreamsLayers (namespace name : string)
    (r : result ImageStreamLayers.t error)
| CallImageStreamsCreate (namespace : string) (stream : ImageStream.t)
    (r : result ImageStream.t error)
| CallImageStreamMappingsCreate (namespace : string)
    (ism : ImageStreamMapping.t) (r : result Status.t error).

Definition isProvisioning (c : Call) : bool :=
  match c with CallImageStreamsCreate _ _ _ => true | _ => false end.

Definition isMappingCreation (c : Call) : bool :=
  match c with CallImageStreamMappingsCreate _ _ _ => true | _ => false end.

Inductive outcome (A : Type) : Type :=
| Returned (a : A)
| Panicked.
Arguments Returned {A} a.
Arguments Panicked {A}.

Module client.
(** [client.Interface], the part the file uses. A method acts on the state
    [CP] of the control plane and answers. *)
Record Interface (CP : Type) := Build {
  Images_Get : string → CP → result Image.t error * CP;
  ImageStreams_Get : string → string → CP → result ImageStream.t error * CP;
  ImageStreams_Layers :
    string → string → CP → result ImageStreamLayers.t error * CP;
  ImageStreams_Create :
    string → ImageStream.t → CP → result ImageStream.t error * CP;
  ImageStreamMappings_Create :
    string → ImageStreamMapping.t → CP → result Status.t error * CP
}.
Arguments Images_Get {CP}.
Arguments ImageStreams_Get {CP}.
Arguments ImageStreams_Layers {CP}.
Arguments ImageStreams_Create {CP}.
Arguments ImageStreamMappings_Create {CP}.
End client.

(** The mutable state a request works on: the control plane, the calls made
    to it so far, the [Image] objects in memory, and the fields of the two
    caching getters an [imageStream] owns. *)
Record World (CP : Type) := mkWorld {
  controlPlane : CP;
  trace : list Call;
  heap : list Image.t;
  imageCache : gmap string nat;
  cachedImageStream : option ImageStream.t;
  cachedImageStreamLayers : option ImageStreamLayers.t
}.
Arguments mkWorld {CP}.
Arguments controlPlane {CP}.
Arguments trace {CP}.
Arguments heap {CP}.
Arguments imageCache {CP}.
Arguments cachedImageStream {CP}.
Arguments cachedImageStreamLayers {CP}.

(** The struct [imageStream]. Its fields [imageClient] and
    [imageStreamGetter] are built by [New] over the same client; their state
    is in the [World]. *)
Record imageStream (CP : Type) := mkImageStream {
  namespace : string;
  name : string;
  registryOSClient : client.Interface CP
}.
Arguments mkImageStream {CP}.
Arguments namespace {CP}.
Arguments name {CP}.
Arguments registryOSClient {CP}.

Section Monad.
Context {CP : Type}.

Definition M (A : Type) : Type := World CP → outcome A * World CP.

Definition ret {A} (a : A) : M A := λ w, (Returned a, w).

Definition bind {A B} (m : M A) (k : A → M B) : M B :=
  λ w, match m w with
       | (Returned a, w') => k a w'
       | (Panicked, w') => (Panicked, w')
       end.

Definition panic {A} : M A := λ w, (Panicked, w).

(** One call to the control plane, recorded in the trace. *)
Definition call {A} (op : CP → A * CP) (ev : A → Call) : M A :=
  λ w, let '(r, cp) := op (controlPlane w) in
       (Returned r,
        mkWorld cp (trace w ++ [ev r]) (heap w) (imageCache w)
                (cachedImageStream w) (cachedImageStreamLayers w)).

(** [*p] for [p : *imageapiv1.Image]. *)
Definition deref (p : nat) : M Image.t :=
  λ w, match heap w !! p with
       | Some img => (Returned img, w)
       | None => (Panicked, w)
       end.

(** A struct value whose address is taken moves to a new object. *)
Definition alloc (img : Image.t) : M nat :=
  λ w, (Returned (List.length (heap w)),
        mkWorld (controlPlane w) (trace w) (heap w ++ [img]) (imageCache w)
                (cachedImageStream w) (cachedImageStreamLayers w)).
End Monad.

Notation "x <- m ;; k" := (bind m (λ x, k))
  (at level 100, m at next level, right associativity).

(** ** The image-stream layer *)

Section ImageStream.
Context {CP : Type}.
Context `{kerrors : !KErrors, libraries : !Libraries, originUtil : !OriginUtil,
          getterCodes : !GetterCodes, runtime : !GoRuntime}.

Implicit Types (ist : imageStream CP) (dgst tag : string).
#[local] Abbreviation M := (@M CP).

(** *** The two caching getters *)

(** Modelled from the spec: the image getter ([cachedImageGetter], built by
    [newCachedImageGetter]) is not among the sources. Section 4.2:
    [get(digest)] returns the Image for a digest or fails; the getter keeps
    a cache of the digests it has fetched already and is otherwise
    stateless. A fetched image lives at one address, which the cache hands
    out again. *)
Definition imageClient_Get ist dgst : M (result nat error) :=
  λ w, match imageCache w !! dgst with
       | Some image => (Returned (Ok image), w)
       | None =>
         (r <- call (client.Images_Get (registryOSClient ist) dgst)
                    (CallImagesGet dgst);;
          match r with
          | Err err => ret (Err err)
          | Ok img =>
            image <- alloc img;;
            λ w', (Returned (Ok image),
                   mkWorld (controlPlane w') (trace w') (heap w')
                           (<[dgst := image]> (imageCache w'))
                           (cachedImageStream w')
                           (cachedImageStreamLayers w'))
          end) w
       end.

(** Modelled from the spec: [cachedImageStreamGetter] is not among the
    sources. Section 4.1: [cacheImageStream(obj)] force-seeds the cache
    with a stream object, bypassing a fetch. *)
Definition cacheImageStream (stream : ImageStream.t) : M unit :=
  λ w, (Returned tt,
        mkWorld (controlPlane w) (trace w) (heap w) (imageCache w)
                (Some stream) (cachedImageStreamLayers w)).

(** Modelled from the spec: section 4.1, failures of the control plane are
    classified into exactly three outcomes, NotFound, Forbidden and
    Unknown. The spec gives no message text; it is left empty. *)
Definition classifyGetterError (err : error) : rerrors.Error :=
  rerrors.NewError
    (if IsNotFound err then ErrImageStreamGetterNotFoundCode
     else if IsForbidden err then ErrImageStreamGetterForbiddenCode
     else ErrImageStreamGetterUnknownCode)
    "" (Some err).

(** Modelled from the spec: section 4.1, [get()] returns the cached
    ImageStream, fetching it from the control plane on first call;
    subsequent calls return the cached value without a new call. *)
Definition imageStreamGetter_get ist : M (result ImageStream.t rerrors.Error) :=
  λ w, match cachedImageStream w with
       | Some stream => (Returned (Ok stream), w)
       | None =>
         (r <- call (client.ImageStreams_Get (registryOSClient ist)
                       (namespace ist) (name ist))
                    (CallImageStreamsGet (namespace ist) (name ist));;
          match r with
          | Err err => ret (Err (classifyGetterError err))
          | Ok stream => _ <- cacheImageStream stream;; ret (Ok stream)
          end) w
       end.

(** Modelled from the spec: section 4.1, [layers()] similarly obtains the
    LayersView of the same stream lazily and caches it. The spec does not
    say how the view is computed; it is read here through the client, as
    the stream ist. *)
Definition imageStreamGetter_layers ist
  : M (result ImageStreamLayers.t rerrors.Error) :=
  λ w, match cachedImageStreamLayers w with
       | Some layers => (Returned (Ok layers), w)
       | None =>
         (r <- call (client.ImageStreams_Layers (registryOSClient ist)
                       (namespace ist) (name ist))
                    (CallImageStreamsLayers (namespace ist) (name ist));;
          match r with
          | Err err => ret (Err (classifyGetterError err))
          | Ok layers =>
            λ w', (Returned (Ok layers),
                   mkWorld (controlPlane w') (trace w') (heap w')
                           (imageCache w') (cachedImageStream w')
                           (Some layers))
          end) w
       end.

(** *** imagestream.go *)

Definition Reference ist : string := namespace ist +:+ "/" +:+ name ist.

Definition convertImageStreamGetterError (err : rerrors.Error) (msg : string)
  : rerrors.Error :=
  let code :=
    if String.eqb (rerrors.Code err) ErrImageStreamGetterNotFoundCode
    then ErrImageStreamNotFoundCode
    else if String.eqb (rerrors.Code err) ErrImageStreamGetterForbiddenCode
    then ErrImageStreamForbiddenCode
    else ErrImageStreamUnknownErrorCode in
  rerrors.NewError code msg (Some (rerrors.as_error err)).

Definition getImage ist dgst : M (result nat rerrors.Error) :=
  r <- imageClient_Get ist dgst;;
  match r with
  | Err err =>
    if IsNotFound err then
      ret (Err (rerrors.NewError ErrImageStreamImageNotFoundCode
             ("getImage: unable to find image digest " +:+ dgst +:+ " in "
              +:+ name ist)
             (Some err)))
    else
      ret (Err (rerrors.NewError ErrImageStreamUnknownErrorCode
             ("getImage: unable to get image digest " +:+ dgst +:+ " in "
              +:+ name ist)
             (Some err)))
  | Ok image => ret (Ok image)
  end.

Definition ResolveImageID ist dgst : M (result TagEvent.t rerrors.Error) :=
  r <- imageStreamGetter_get ist;;
  match r with
  | Err rErr =>
    ret (Err (convertImageStreamGetterError rErr
           ("ResolveImageID: failed to get image stream " +:+ Reference ist)))
  | Ok stream =>
    match util_ResolveImageID stream dgst with
    | Err err =>
      let code :=
        if IsNotFound err then ErrImageStreamImageNotFoundCode
        else ErrImageStreamUnknownErrorCode in
      ret (Err (rerrors.NewError code
             ("ResolveImageID: unable to resolve ImageID " +:+ dgst
              +:+ " in image stream " +:+ Reference ist)
             (Some err)))
    | Ok tagEvent => ret (Ok tagEvent)
    end
  end.

Definition getStoredImageOfImageStream ist dgst
  : M (result (nat * TagEvent.t) rerrors.Error) :=
  r <- ResolveImageID ist dgst;;
  match r with
  | Err err => ret (Err err)
  | Ok tagEvent =>
    r <- getImage ist dgst;;
    match r with
    | Err err => ret (Err err)
    | Ok image => ret (Ok (image, tagEvent))
    end
  end.

Definition getImageOfImageStream ist dgst : M (result nat rerrors.Error) :=
  r <- getStoredImageOfImageStream ist dgst;;
  match r with
  | Err err => ret (Err err)
  | Ok (image, tagEvent) =>
    img <- deref image;;
    p <- alloc (Image.set_DockerImageReference
                  (TagEvent.DockerImageReference tagEvent) img);;
    ret (Ok p)
  end.

(** The inner loop of [resolveUpstreamRef]:
    [for _, m := range ibr.Manifests { if m == dgst.String() { found = true; break } }]. *)
Fixpoint manifestsContain (manifests : list string) dgst : bool :=
  match manifests with
  | [] => false
  | m :: rest => if String.eqb m dgst then true else manifestsContain rest dgst
  end.

(** The outer loop, over the entries of [layers.Images] in the order the
    run visits them; [parent] stays [""] when no entry is found. *)
Fixpoint findParent (images : list (string * ImageBlobReferences.t)) dgst
  : string :=
  match images with
  | [] => ""
  | (image, ibr) :: rest =>
    if manifestsContain (ImageBlobReferences.Manifests ibr) dgst then image
    else findParent rest dgst
  end.

Definition resolveUpstreamRef ist dgst
  : M (result DockerImageReference.t rerrors.Error) :=
  r <- imageStreamGetter_layers ist;;
  match r with
  | Err rErr =>
    ret (Err (rerrors.NewError ErrImageStreamUnknownErrorCode
           ("resolveUpstreamRef: failed to get layers for image stream "
            +:+ Reference ist)
           (Some (rerrors.as_error rErr))))
  | Ok layers =>
    let parent :=
      findParent (range_Images (ImageStreamLayers.Images layers)) dgst in
    if String.eqb parent "" then
      ret (Err (rerrors.NewError ErrImageStreamImageNotFoundCode
             ("resolveUpstreamRef: unable to find parent for image " +:+ dgst
              +:+ " in image stream " +:+ Reference ist)
             None))
    else
      r <- ResolveImageID ist parent;;
      match r with
      | Err rErr =>
        ret (Err (rerrors.NewError ErrImageStreamUnknownErrorCode
               ("resolveUpstreamRef: unable to get parent event " +:+ parent
                +:+ " in image stream " +:+ Reference ist)
               (Some (rerrors.as_error rErr))))
      | Ok parentTagEvent =>
        match reference_Parse (TagEvent.DockerImageReference parentTagEvent) with
        | Err err =>
          ret (Err (rerrors.NewError ErrImageStreamUnknownErrorCode
                 ("resolveUpstreamRef: unable to parse parent image reference "
                  +:+ TagEvent.DockerImageReference parentTagEvent
                  +:+ " in image stream " +:+ Reference ist)
                 (Some err)))
        | Ok ref =>
          ret (Ok (DockerImageReference.set_ID dgst
                     (DockerImageReference.set_Tag "" ref)))
        end
      end
  end.

Definition GetImageOfImageStream ist dgst : M (result nat rerrors.Error) :=
  r <- getImageOfImageStream ist dgst;;
  match r with
  | Ok isImage => ret (Ok isImage)
  | Err _ =>
    r <- resolveUpstreamRef ist dgst;;
    match r with
    | Err err => ret (Err err)
    | Ok ref =>
      r <- getImage ist dgst;;
      match r with
      | Err err => ret (Err err)
      | Ok image =>
        img <- deref image;;
        p <- alloc (Image.set_DockerImageReference (reference_String ref) img);;
        ret (Ok p)
      end
    end
  end.

(** The loop of [TagIsInsecure] over [stream.Spec.Tags]; [None] when it
    runs to its end without returning. *)
Fixpoint specTagInsecure (tags : list TagReference.t) tag : option bool :=
  match tags with
  | [] => None
  | t :: rest =>
    if String.eqb (TagReference.Name t) tag
    then Some (TagImportPolicy.Insecure (TagReference.ImportPolicy t))
    else specTagInsecure rest tag
  end.

Definition TagIsInsecure ist tag dgst : M (result bool rerrors.Error) :=
  r <- imageStreamGetter_get ist;;
  match r with
  | Err err =>
    ret (Err (convertImageStreamGetterError err
           ("TagIsInsecure: failed to get image stream " +:+ Reference ist)))
  | Ok stream =>
    let insecure :=
      default "" (ObjectMeta.Annotations (ImageStream.ObjectMeta stream)
                    !! InsecureRepositoryAnnotation) in
    if String.eqb insecure "true" then ret (Ok true)
    else
      let tag :=
        if Nat.eqb (String.length tag) 0
        then fst (util_LatestImageTagEvent stream dgst)
        else tag in
      if negb (Nat.eqb (String.length tag) 0) then
        match specTagInsecure
                (ImageStreamSpec.Tags (ImageStream.Spec stream)) tag with
        | Some b => ret (Ok b)
        | None => ret (Ok false)
        end
      else ret (Ok false)
  end.

(** The loop of [Tags] over [stream.Status.Tags], on the map [m]. A digest
    that does not parse is logged and skipped. *)
Fixpoint tagsLoop (histories : list NamedTagEventList.t)
    (m : gmap string string) : gmap string string :=
  match histories with
  | [] => m
  | history :: rest =>
    match NamedTagEventList.Items history with
    | [] => tagsLoop rest m
    | item0 :: _ =>
      match digest_Parse (TagEvent.Image item0) with
      | Err _ => tagsLoop rest m
      | Ok dgst => tagsLoop rest (<[NamedTagEventList.Tag history := dgst]> m)
      end
    end
  end.

Definition Tags ist : M (result (gmap string string) rerrors.Error) :=
  r <- imageStreamGetter_get ist;;
  match r with
  | Err err =>
    ret (Err (convertImageStreamGetterError err
           ("Tags: failed to get image stream " +:+ Reference ist)))
  | Ok stream =>
    ret (Ok (tagsLoop (ImageStreamStatus.Tags (ImageStream.Status stream)) ∅))
  end.

(** [kerrors.IsNotFound(statusErr) && strings.ToLower(status.Details.Kind) == "namespaces"]:
    the right operand reads through the pointer [status.Details]. *)
Definition namespaceNotFound (err : error) (status : Status.t) : M bool :=
  if IsNotFound err then
    match Status.Details status with
    | None => panic
    | Some details =>
      ret (String.eqb (strings_ToLower (StatusDetails.Kind details)) "namespaces")
    end
  else ret false.

(** [status.Details != nil && status.Details.Kind == "imagestreammappings"]. *)
Definition isValidKind (status : Status.t) : bool :=
  match Status.Details status with
  | None => false
  | Some details => String.eqb (StatusDetails.Kind details) "imagestreammappings"
  end.

(** [!isValidKind || status.Code != http.StatusNotFound || status.Details.Name != is.name]. *)
Definition notStreamNotFound ist (status : Status.t) : M bool :=
  if negb (isValidKind status) then ret true
  else if negb (Z.eqb (Status.Code status) StatusNotFound) then ret true
  else match Status.Details status with
       | None => panic
       | Some details =>
         ret (negb (String.eqb (StatusDetails.Name details) (name ist)))
       end.

(** The [switch] on the error of the provisioning call: [None] when the
    run goes on to the second attempt. *)
Definition provisioningError ist (r : result ImageStream.t error)
  : option rerrors.Error :=
  match r with
  | Ok _ => None
  | Err err =>
    if (IsAlreadyExists err || IsConflict err)%bool then None
    else if (IsForbidden err || IsUnauthorized err
             || IsErrorQuotaExceeded err)%bool then
      Some (rerrors.NewError ErrImageStreamForbiddenCode
              ("CreateImageStreamMapping: denied creating ImageStream "
               +:+ Reference ist)
              (Some err))
    else
      Some (rerrors.NewError ErrImageStreamUnknownErrorCode
              ("CreateImageStreamMapping: error auto provisioning ImageStream "
               +:+ Reference ist)
              (Some err))
  end.

(** [image] is read once, by [*image], and is taken by value. *)
Definition CreateImageStreamMapping ist (userClient : client.Interface CP)
    tag (image : Image.t) : M (option rerrors.Error) :=
  let ism :=
    ImageStreamMapping.Build
      (ObjectMeta.Build (name ist) (namespace ist) ∅) image tag in
  r <- call (client.ImageStreamMappings_Create (registryOSClient ist)
               (namespace ist) ism)
            (CallImageStreamMappingsCreate (namespace ist) ism);;
  match r with
  | Ok _ => ret None
  | Err err =>
    if IsErrorQuotaExceeded err then
      ret (Some (rerrors.NewError ErrImageStreamForbiddenCode
             ("CreateImageStreamMapping: quota exceeded during creation of "
              +:+ Reference ist +:+ " ImageStreamMapping")
             (Some err)))
    else
      match asStatusError err with
      | None =>
        ret (Some (rerrors.NewError ErrImageStreamUnknownErrorCode
               ("CreateImageStreamMapping: error creating " +:+ Reference ist
                +:+ " ImageStreamMapping")
               (Some err)))
      | Some status =>
        b <- namespaceNotFound err status;;
        if b : bool then
          ret (Some (rerrors.NewError ErrImageStreamForbiddenCode
                 ("CreateImageStreamMapping: error creating "
                  +:+ Reference ist +:+ " ImageStreamMapping")
                 (Some err)))
        else
          b <- notStreamNotFound ist status;;
          if b : bool then
            ret (Some (rerrors.NewError ErrImageStreamUnknownErrorCode
                   ("CreateImageStreamMapping: error creation of "
                    +:+ Reference ist +:+ " ImageStreamMapping")
                   (Some err)))
          else
            let stream := ImageStream.set_Name (name ist) ImageStream.empty in
            r <- call (client.ImageStreams_Create userClient
                         (namespace ist) stream)
                      (CallImageStreamsCreate (namespace ist) stream);;
            match provisioningError ist r with
            | Some rerr => ret (Some rerr)
            | None =>
              _ <- cacheImageStream stream;;
              r <- call (client.ImageStreamMappings_Create
                           (registryOSClient ist) (namespace ist) ism)
                        (CallImageStreamMappingsCreate (namespace ist) ism);;
              match r with
              | Ok _ => ret None
              | Err err =>
                if IsErrorQuotaExceeded err then
                  ret (Some (rerrors.NewError ErrImageStreamForbiddenCode
                         ("CreateImageStreamMapping: quota exceeded during creation of "
                          +:+ Reference ist
                          +:+ " ImageStreamMapping second time")
                         (Some err)))
                else
                  ret (Some (rerrors.NewError ErrImageStreamUnknownErrorCode
                         ("CreateImageStreamMapping: error creating "
                          +:+ Reference ist
                          +:+ " ImageStreamMapping second time")
                         (Some err)))
              end
            end
      end
  end.

End ImageStream.

(** ** The rest of imagestream.go *)

(** [reference.Parse] answers with a reference and an error; [localRegistry]
    reads the reference also when the error is not nil.
    [reference_Parse_failed s] is the reference that comes with the error. *)
Class ParseFailure := {
  reference_Parse_failed : string → DockerImageReference.t
}.

Module ImagePullthroughSpec.
Record t := Build {
  DockerImageReference : DockerImageReference.t;
  Insecure : bool
}.
End ImagePullthroughSpec.

(** [identifyCandidateRepositories], a function of the package that is
    declared in another file. *)
Class Candidates := {
  identifyCandidateRepositories :
    ImageStream.t → list string → bool
    → list string * gmap string ImagePullthroughSpec.t
}.

Section Readers.
Context {CP : Type}.
Context `{kerrors : !KErrors, libraries : !Libraries, originUtil : !OriginUtil,
          getterCodes : !GetterCodes, runtime : !GoRuntime,
          parseFailure : !ParseFailure, candidates : !Candidates}.

Implicit Types (ist : imageStream CP).
#[local] Abbreviation M := (@M CP).

Definition Exists ist : M (result bool rerrors.Error) :=
  r <- imageStreamGetter_get ist;;
  match r with
  | Err rErr =>
    if String.eqb (rerrors.Code rErr) ErrImageStreamGetterNotFoundCode
    then ret (Ok false)
    else
      ret (Err (convertImageStreamGetterError rErr
             ("Exists: failed to get image stream " +:+ Reference ist)))
  | Ok _ => ret (Ok true)
  end.

(** [local, err := reference.Parse(s)] where [err] is only logged. *)
Definition parsedOrLogged (s : string) : DockerImageReference.t :=
  match reference_Parse s with
  | Ok ref => ref
  | Err _ => reference_Parse_failed s
  end.

Definition localRegistry ist : M (result (list string) rerrors.Error) :=
  r <- imageStreamGetter_get ist;;
  match r with
  | Err rErr =>
    ret (Err (convertImageStreamGetterError rErr
           ("localRegistry: failed to get image stream " +:+ Reference ist)))
  | Ok stream =>
    let localNames : list string := [] in
    let local :=
      parsedOrLogged
        (ImageStreamStatus.DockerImageRepository (ImageStream.Status stream)) in
    let localNames :=
      if negb (Nat.eqb (String.length (DockerImageReference.Registry local)) 0)
      then localNames ++ [DockerImageReference.Registry local]
      else localNames in
    let localNames :=
      if Nat.ltb 0 (String.length
                      (ImageStreamStatus.PublicDockerImageRepository
                         (ImageStream.Status stream)))
      then
        let public :=
          parsedOrLogged
            (ImageStreamStatus.PublicDockerImageRepository
               (ImageStream.Status stream)) in
        if negb (Nat.eqb (String.length (DockerImageReference.Registry public)) 0)
        then localNames ++ [DockerImageReference.Registry public]
        else localNames
      else localNames in
    ret (Ok localNames)
  end.

(** [localRegistry, _ := is.localRegistry(ctx)]: with an error the names are
    nil. *)
Definition IdentifyCandidateRepositories ist (primary : bool)
  : M (result (list string * gmap string ImagePullthroughSpec.t) rerrors.Error) :=
  r <- imageStreamGetter_get ist;;
  match r with
  | Err err =>
    ret (Err (convertImageStreamGetterError err
           ("IdentifyCandidateRepositories: failed to get image stream "
            +:+ Reference ist)))
  | Ok stream =>
    r <- localRegistry ist;;
    let localRegistry :=
      match r with
      | Ok names => names
      | Err _ => []
      end in
    ret (Ok (identifyCandidateRepositories stream localRegistry primary))
  end.
End Readers.

(** *** Limit ranges *)

Module LimitRange.
Record t := Build {
  ObjectMeta : ObjectMeta.t;
  LimitTypes : list string
}.
End LimitRange.

Module LimitRangeList.
Record t := Build {
  ResourceVersion : string;
  Items : list LimitRange.t
}.
End LimitRangeList.

(** The values of [runtime.Object] a [ProjectObjectListStore] may hold: a
    list of limit ranges or an object of another kind. A pointer to a list is
    taken to point to one, as the pointers to streams and events are. *)
Inductive Object : Type :=
| LimitRangeListObject (lrs : LimitRangeList.t)
| OtherObject (kind : string).

(** The interface [ProjectObjectListStore], over the state [S] of a store.
    [Get] answers with the object (nil when there is none), whether it
    exists, and an error. *)
Module ProjectObjectListStore.
Record t (S : Type) := Build {
  Add : string → Object → S → option error * S;
  Get : string → S → (option Object * bool * option error) * S
}.
Arguments Add {S}.
Arguments Get {S}.
End ProjectObjectListStore.

(** The listing of limit ranges, [LimitRanges(namespace).List] of
    [client.Interface], and the calls made to it with their answers. *)
Definition LimitRangesLister (CP : Type) : Type :=
  string → CP → result LimitRangeList.t error * CP.

Inductive ListCall : Type :=
| CallLimitRangesList (namespace : string) (r : result LimitRangeList.t error).

(** What [GetLimitRangeList] works on: the control plane, the store behind
    the cache, and the listings made so far. *)
Record Listing (CP S : Type) := mkListing {
  plane : CP;
  store : S;
  listed : list ListCall
}.
Arguments mkListing {CP S}.
Arguments plane {CP S}.
Arguments store {CP S}.
Arguments listed {CP S}.

Section LimitRanges.
Context {CP S : Type}.
Implicit Types (ist : imageStream CP) (l : Listing CP S).

(** The first block of [GetLimitRangeList]: the object of a cache that is
    not nil and holds one for the namespace; the error of [Get] is
    dropped. *)
Definition cachedObject ist (cache : option (ProjectObjectListStore.t S)) l
  : option (option Object) * S :=
  match cache with
  | None => (None, store l)
  | Some c =>
    let '((obj, exists_, _), s) :=
      ProjectObjectListStore.Get c (namespace ist) (store l) in
    (if exists_ : bool then Some obj else None, s)
  end.

(** [limitRanges] stands for [is.registryOSClient.LimitRanges]. The type
    assertion [obj.( *corev1.LimitRangeList)] panics on an object of another
    type and on nil. *)
Definition GetLimitRangeList ist (limitRanges : LimitRangesLister CP)
    (cache : option (ProjectObjectListStore.t S)) l
  : outcome (result LimitRangeList.t rerrors.Error) * Listing CP S :=
  match cachedObject ist cache l with
  | (Some obj, s) =>
    match obj with
    | Some (LimitRangeListObject lrs) =>
      (Returned (Ok lrs), mkListing (plane l) s (listed l))
    | _ => (Panicked, mkListing (plane l) s (listed l))
    end
  | (None, s) =>
    let '(r, cp) := limitRanges (namespace ist) (plane l) in
    let calls := listed l ++ [CallLimitRangesList (namespace ist) r] in
    match r with
    | Err err =>
      (Returned (Err (rerrors.NewError ErrImageStreamUnknownErrorCode
                        ("GetLimitRangeList: failed to list limitranges for "
                         +:+ Reference ist)
                        (Some err))),
       mkListing cp s calls)
    | Ok lrs =>
      match cache with
      | Some c =>
        let '(_, s') :=
          ProjectObjectListStore.Add c (namespace ist)
            (LimitRangeListObject lrs) s in
        (Returned (Ok lrs), mkListing cp s' calls)
      | None => (Returned (Ok lrs), mkListing cp s calls)
      end
    end
  end.
End LimitRanges.

(** ** A small cluster to run the layer on

    One instance of every interface above, used to evaluate the functions on
    concrete requests. *)

Module Sample.

(** *** Strings *)

Fixpoint contains (s sub : string) : bool :=
  if strings_HasPrefix s sub then true
  else match s with
       | EmptyString => false
       | String _ s' => contains s' sub
       end.

(** [cut sep s]: the text before the first [sep] and, when [sep] occurs,
    the text after it. *)
Fixpoint cut (sep : ascii) (s : string) : string * option string :=
  match s with
  | EmptyString => (EmptyString, None)
  | String c rest =>
    if Ascii.eqb c sep then (EmptyString, Some rest)
    else let '(before, after) := cut sep rest in (String c before, after)
  end.

(** *** The tests on errors, by the reason of a status error *)

Definition reasonForError (err : error) : string :=
  match err with
  | StatusError status => Status.Reason status
  | _ => ""
  end.

Definition messageOf (err : error) : string :=
  match err with
  | StatusError status => Status.Message status
  | registryError _ message _ => message
  | errorString s => s
  end.

Definition kerrors : KErrors := {|
  IsNotFound err := String.eqb (reasonForError err) "NotFound";
  IsAlreadyExists err := String.eqb (reasonForError err) "AlreadyExists";
  IsConflict err := String.eqb (reasonForError err) "Conflict";
  IsForbidden err := String.eqb (reasonForError err) "Forbidden";
  IsUnauthorized err := String.eqb (reasonForError err) "Unauthorized";
  IsErrorQuotaExceeded err :=
    (String.eqb (reasonForError err) "Forbidden"
     && contains (strings_ToLower (messageOf err)) "exceeded quota")%bool
|}.

(** *** References [registry/namespace/name[:tag][@id]] and digests *)

Definition parseReference (s : string)
  : result DockerImageReference.t error :=
  let '(registry, r1) := cut "/" s in
  match r1 with
  | None => Err (errorString "invalid reference")
  | Some r1 =>
    let '(ns, r2) := cut "/" r1 in
    match r2 with
    | None => Err (errorString "invalid reference")
    | Some r2 =>
      let '(nameTag, id) := cut "@" r2 in
      let '(nm, tg) := cut ":" nameTag in
      if String.eqb nm "" then Err (errorString "invalid reference")
      else Ok (DockerImageReference.Build registry ns nm
                 (default "" tg) (default "" id))
    end
  end.

Definition referenceString (r : DockerImageReference.t) : string :=
  DockerImageReference.Registry r +:+ "/"
  +:+ DockerImageReference.Namespace r +:+ "/"
  +:+ DockerImageReference.Name r
  +:+ (if negb (String.eqb (DockerImageReference.Tag r) "")
       then ":" +:+ DockerImageReference.Tag r
       else if negb (String.eqb (DockerImageReference.ID r) "")
       then "@" +:+ DockerImageReference.ID r
       else "").

Definition parseDigest (s : string) : result string error :=
  if strings_HasPrefix s "sha256:" then Ok s
  else Err (errorString "invalid checksum digest format").

Definition libraries : Libraries := {|
  reference_Parse := parseReference;
  reference_String := referenceString;
  digest_Parse := parseDigest;
  InsecureRepositoryAnnotation := "openshift.io/image.insecureRepository"
|}.

(** *** The searches of the tag history *)

Definition notFound (kind nm : string) : error :=
  StatusError (Status.Build (kind +:+ " " +:+ nm +:+ " not found") "NotFound"
                 (Some (StatusDetails.Build nm kind)) StatusNotFound).

(** All the events of a stream with their tags, in the order of
    [stream.Status.Tags] and of each history. *)
Definition events (stream : ImageStream.t) : list (string * TagEvent.t) :=
  flat_map
    (λ history, map (pair (NamedTagEventList.Tag history))
                    (NamedTagEventList.Items history))
    (ImageStreamStatus.Tags (ImageStream.Status stream)).

Definition matching (stream : ImageStream.t) (imageID : string)
  : list (string * TagEvent.t) :=
  List.filter (λ te, String.eqb (TagEvent.Image (snd te)) imageID)
              (events stream).

(** Modelled from the spec: [util.ResolveImageID] of
    [pkg/origin-common/util] is not among the sources. Section 4.3: look
    up the digest in the stream's tag history to obtain a TagEvent; a
    digest with no history entry is an error (not found). With digests
    compared for equality no two different images match one digest. *)
Definition resolveImageID (stream : ImageStream.t) (imageID : string)
  : result TagEvent.t error :=
  match matching stream imageID with
  | [] => Err (notFound "imagestreamimage" imageID)
  | (_, event) :: _ => Ok event
  end.

(** The latest of a list of events: a later one replaces the one held when
    it was created after it. *)
Fixpoint latest (best : string * option TagEvent.t)
    (l : list (string * TagEvent.t)) : string * option TagEvent.t :=
  match l with
  | [] => best
  | (tg, event) :: rest =>
    match snd best with
    | None => latest (tg, Some event) rest
    | Some held =>
      if Z.ltb (TagEvent.Created held) (TagEvent.Created event)
      then latest (tg, Some event) rest
      else latest best rest
    end
  end.

(** Modelled from the spec: [util.LatestImageTagEvent] of
    [pkg/origin-common/util] is not among the sources. Section 8: for a
    digest-only lookup the tag name is reverse-resolved via the digest's
    latest tag-history event; no tag and no event when the digest has
    none. *)
Definition latestImageTagEvent (stream : ImageStream.t) (imageID : string)
  : string * option TagEvent.t :=
  latest ("", None) (matching stream imageID).

Definition originUtil : OriginUtil := {|
  util_ResolveImageID := resolveImageID;
  util_LatestImageTagEvent := latestImageTagEvent
|}.

Definition getterCodes : GetterCodes := {|
  ErrImageStreamGetterNotFoundCode := "ImageStreamGetter:NotFound";
  ErrImageStreamGetterForbiddenCode := "ImageStreamGetter:Forbidden";
  ErrImageStreamGetterUnknownCode := "ImageStreamGetter:Unknown"
|}.

(** A runtime that visits a map in the order of [map_to_list]. *)
Definition runtime : GoRuntime := {|
  range_Images := map_to_list;
  range_Images_perm m := reflexivity (map_to_list m)
|}.

(** *** The control plane *)

(** One cluster: its namespaces, the images by digest, the image streams
    and their layers by [namespace/name], and the number of mappings the
    quota still admits. *)
Record Cluster := mkCluster {
  namespaces : list string;
  images : gmap string Image.t;
  streams : gmap string ImageStream.t;
  layersOf : gmap string ImageStreamLayers.t;
  quota : nat
}.

Definition key (ns nm : string) : string := ns +:+ "/" +:+ nm.

Definition hasNamespace (ns : string) (c : Cluster) : bool :=
  existsb (String.eqb ns) (namespaces c).

Definition quotaExceeded : error :=
  StatusError (Status.Build "imagestreammappings is forbidden: exceeded quota"
                 "Forbidden" None 403).

Definition alreadyExists (nm : string) : error :=
  StatusError (Status.Build ("imagestreams " +:+ nm +:+ " already exists")
                 "AlreadyExists"
                 (Some (StatusDetails.Build nm "imagestreams")) 409).

Definition success : Status.t := Status.Build "" "" None 201.

(** The event a new mapping records at the head of the history of its
    tag. *)
Definition recordMapping (ism : ImageStreamMapping.t) (stream : ImageStream.t)
  : ImageStream.t :=
  let event :=
    TagEvent.Build 0 (Image.DockerImageReference (ImageStreamMapping.Image ism))
      (ObjectMeta.Name (Image.ObjectMeta (ImageStreamMapping.Image ism))) 0 in
  ImageStream.Build (ImageStream.ObjectMeta stream) (ImageStream.Spec stream)
    (ImageStreamStatus.Build
       (ImageStreamStatus.DockerImageRepository (ImageStream.Status stream))
       (ImageStreamStatus.PublicDockerImageRepository (ImageStream.Status stream))
       (NamedTagEventList.Build (ImageStreamMapping.Tag ism) [event]
        :: ImageStreamStatus.Tags (ImageStream.Status stream))).

Definition createMapping (ns : string) (ism : ImageStreamMapping.t)
    (c : Cluster) : result Status.t error * Cluster :=
  let nm := ObjectMeta.Name (ImageStreamMapping.ObjectMeta ism) in
  if negb (hasNamespace ns c) then (Err (notFound "namespaces" ns), c)
  else match quota c with
       | O => (Err quotaExceeded, c)
       | S remaining =>
         match streams c !! key ns nm with
         | None => (Err (notFound "imagestreammappings" nm), c)
         | Some stream =>
           (Ok success,
            mkCluster (namespaces c) (images c)
              (<[key ns nm := recordMapping ism stream]> (streams c))
              (layersOf c) remaining)
         end
       end.

Definition createStream (ns : string) (stream : ImageStream.t) (c : Cluster)
  : result ImageStream.t error * Cluster :=
  let nm := ObjectMeta.Name (ImageStream.ObjectMeta stream) in
  match streams c !! key ns nm with
  | Some _ => (Err (alreadyExists nm), c)
  | None =>
    (Ok stream,
     mkCluster (namespaces c) (images c) (<[key ns nm := stream]> (streams c))
       (layersOf c) (quota c))
  end.

Definition clusterClient : client.Interface Cluster := {|
  client.Images_Get dgst c :=
    (match images c !! dgst with
     | Some img => Ok img
     | None => Err (notFound "images" dgst)
     end, c);
  client.ImageStreams_Get ns nm c :=
    (match streams c !! key ns nm with
     | Some stream => Ok stream
     | None => Err (notFound "imagestreams" nm)
     end, c);
  client.ImageStreams_Layers ns nm c :=
    (match layersOf c !! key ns nm with
     | Some layers => Ok layers
     | None => Err (notFound "imagestreams" nm)
     end, c);
  client.ImageStreams_Create := createStream;
  client.ImageStreamMappings_Create := createMapping
|}.

(** *** The stream [team/app] *)

Definition dgstApp : string := "sha256:aaa".
Definition dgstList : string := "sha256:111".
Definition dgstChild : string := "sha256:222".
Definition dgstOtherList : string := "sha256:333".

Definition image (dgst ref : string) : Image.t :=
  Image.Build (ObjectMeta.Build dgst "" ∅) ref "1.0" "{}"
    [ImageLayer.Build "sha256:fff" 42 "application/vnd.docker.image.rootfs.diff.tar.gzip"]
    "application/vnd.docker.distribution.manifest.v2+json" "{}".

Definition tagEvent (created : Z) (ref dgst : string) : TagEvent.t :=
  TagEvent.Build created ref dgst 1.

Definition appStream (annotations : gmap string string)
    (extra : list NamedTagEventList.t) : ImageStream.t :=
  ImageStream.Build
    (ObjectMeta.Build "app" "team" annotations)
    (ImageStreamSpec.Build ""
       [TagReference.Build "latest" (TagImportPolicy.Build false false);
        TagReference.Build "edge" (TagImportPolicy.Build true false)])
    (ImageStreamStatus.Build "registry.local:5000/team/app" ""
       ([NamedTagEventList.Build "latest"
           [tagEvent 20 "quay.example/team/app@sha256:aaa" dgstApp];
         NamedTagEventList.Build "edge"
           [tagEvent 30 "insecure.example/team/app@sha256:aaa" dgstApp];
         NamedTagEventList.Build "multi"
           [tagEvent 10 "quay.example/team/multi@sha256:111" dgstList];
         NamedTagEventList.Build "empty" [];
         NamedTagEventList.Build "broken"
           [tagEvent 5 "quay.example/team/broken:v1" "not-a-digest"]]
        ++ extra)).

Definition listOf (children : list string) : ImageBlobReferences.t :=
  ImageBlobReferences.Build false [] None children.

Definition appLayers (images : gmap string ImageBlobReferences.t)
  : ImageStreamLayers.t :=
  ImageStreamLayers.Build (ObjectMeta.Build "app" "team" ∅) images.

Definition storedImages : gmap string Image.t :=
  {[ dgstApp := image dgstApp "registry.local:5000/team/app@sha256:aaa";
     dgstList := image dgstList "registry.local:5000/team/app@sha256:111";
     dgstChild := image dgstChild "registry.local:5000/team/app@sha256:222" ]}.

(** The cluster with one manifest list that holds [dgstChild]. *)
Definition cluster : Cluster :=
  mkCluster ["team"] storedImages
    {[ key "team" "app" := appStream ∅ [] ]}
    {[ key "team" "app" :=
         appLayers {[ dgstList := listOf [dgstChild; "sha256:444"];
                      dgstApp := listOf [] ]} ]}
    8.

(** The same with the stream marked insecure as a whole. *)
Definition insecureCluster : Cluster :=
  mkCluster ["team"] storedImages
    {[ key "team" "app" :=
         appStream {[ "openshift.io/image.insecureRepository" := "true" ]} [] ]}
    ∅ 8.

(** A cluster where two manifest lists, tagged from two registries, hold
    [dgstChild]. *)
Definition twoParents : Cluster :=
  mkCluster ["team"] storedImages
    {[ key "team" "app" :=
         appStream ∅
           [NamedTagEventList.Build "mirror"
              [tagEvent 40 "mirror.example/other/multi@sha256:333"
                 dgstOtherList]] ]}
    {[ key "team" "app" :=
         appLayers {[ dgstList := listOf [dgstChild];
                      dgstOtherList := listOf [dgstChild] ]} ]}
    8.

(** A cluster without the stream, one without the namespace, and one whose
    quota is used up. *)
Definition noStream : Cluster := mkCluster ["team"] storedImages ∅ ∅ 8.
Definition noNamespace : Cluster := mkCluster [] storedImages ∅ ∅ 8.
Definition noQuota : Cluster := mkCluster ["team"] storedImages ∅ ∅ 0.

Definition app : imageStream Cluster := mkImageStream "team" "app" clusterClient.

(** A digest the cluster does not know, and an image to push. *)
Definition dgstUnknown : string := "sha256:999".
Definition pushed : Image.t :=
  image "sha256:bbb" "registry.local:5000/team/app@sha256:bbb".

(** The state at the start of a request. *)
Definition start (c : Cluster) : World Cluster := mkWorld c [] [] ∅ None None.

End Sample.

(** ** More of the sample cluster *)

Module SampleMore.
Import Sample.

(** The reference that comes with a parse error: the zero value. *)
Definition parseFailure : ParseFailure := {|
  reference_Parse_failed _ := DockerImageReference.empty
|}.

(** Candidates for the tests: the local names when they are asked for, and
    no pull specs. *)
Definition candidates : Candidates := {|
  identifyCandidateRepositories _ localRegistry primary :=
    (if primary then localRegistry else [], ∅)
|}.

Definition forbidden (what : string) : error :=
  StatusError (Status.Build (what +:+ " is forbidden") "Forbidden" None 403).

(** A user who may not create image streams. *)
Definition readOnlyClient : client.Interface Cluster := {|
  client.Images_Get := client.Images_Get clusterClient;
  client.ImageStreams_Get := client.ImageStreams_Get clusterClient;
  client.ImageStreams_Layers := client.ImageStreams_Layers clusterClient;
  client.ImageStreams_Create _ _ c := (Err (forbidden "imagestreams"), c);
  client.ImageStreamMappings_Create :=
    client.ImageStreamMappings_Create clusterClient
|}.

(** A control plane that answers a mapping for a missing stream with a
    not-found status that has no details. *)
Definition bareNotFound : error :=
  StatusError (Status.Build "not found" "NotFound" None StatusNotFound).

Definition bareClient : client.Interface Cluster := {|
  client.Images_Get := client.Images_Get clusterClient;
  client.ImageStreams_Get := client.ImageStreams_Get clusterClient;
  client.ImageStreams_Layers := client.ImageStreams_Layers clusterClient;
  client.ImageStreams_Create := client.ImageStreams_Create clusterClient;
  client.ImageStreamMappings_Create _ _ c := (Err bareNotFound, c)
|}.

Definition bareApp : imageStream Cluster := mkImageStream "team" "app" bareClient.

(** A stream with a public repository on the registry of the local one. *)
Definition publicStream : ImageStream.t :=
  ImageStream.Build (ObjectMeta.Build "app" "team" ∅) ImageStreamSpec.empty
    (ImageStreamStatus.Build "registry.local:5000/team/app"
       "registry.local:5000/team/app" []).

Definition publicCluster : Cluster :=
  mkCluster ["team"] storedImages {[ key "team" "app" := publicStream ]} ∅ 8.

(** The limit ranges of the namespaces of a cluster, and a store of objects
    by namespace. *)
Definition limits : LimitRangeList.t :=
  LimitRangeList.Build "41"
    [LimitRange.Build (ObjectMeta.Build "image-limits" "team" ∅)
       ["openshift.io/Image"]].

Definition listLimitRanges : LimitRangesLister Cluster :=
  λ ns c, (if hasNamespace ns c then Ok limits
           else Err (notFound "namespaces" ns), c).

Definition mapStore : ProjectObjectListStore.t (gmap string Object) := {|
  ProjectObjectListStore.Add ns obj s := (None, <[ns := obj]> s);
  ProjectObjectListStore.Get ns s :=
    ((s !! ns, bool_decide (is_Some (s !! ns)), None), s)
|}.

End SampleMore.

(** ** Predicates on states *)

(** The addresses the image getter holds are addresses of objects. *)
Definition cacheInHeap {CP} (w : World CP) : Prop :=
  ∀ dgst image, imageCache w !! dgst = Some image →
                (image < List.length (heap w))%nat.

(** [extends w w']: from [w] to [w'] no object was written and no call
    forgotten, and an address the image getter holds in [w'] is one it held
    in [w] or the address of a new object, the image a call for its digest
    delivered. *)
Definition extends {CP} (w w' : World CP) : Prop :=
  heap w `prefix_of` heap w'
  ∧ trace w `prefix_of` trace w'
  ∧ ∀ dgst image, imageCache w' !! dgst = Some image →
      imageCache w !! dgst = Some image
      ∨ ((List.length (heap w) ≤ image)%nat
         ∧ ∃ img, heap w' !! image = Some img
                  ∧ CallImagesGet dgst (Ok img) ∈ trace w').

Definition steady {CP A} (m : M (CP:=CP) A) : Prop :=
  ∀ w out w', m w = (out, w') → extends w w'.

(** The last steps of both resolutions: the object at [image], which the
    getter holds for the digest, is copied into a new object at [p], and the
    copy gets the reference [ref]. *)
Definition copied {CP} (dgst ref : string) (p : nat) (w2 w' : World CP) : Prop :=
  ∃ image stored,
    imageCache w2 !! dgst = Some image
    ∧ heap w2 !! image = Some stored
    ∧ p = List.length (heap w2)
    ∧ heap w' = heap w2 ++ [Image.set_DockerImageReference ref stored]
    ∧ imageCache w' = imageCache w2
    ∧ trace w' = trace w2.

(** What a resolution of [dgst] that ran from [w] to [w'] leaves of the
    images: nothing that was there is written; an image returned at [p] is a
    new object, not one the getter holds, and equal to the getter's object
    for the digest but for its reference. *)
Definition imagesUntouched {CP} (dgst : string) (w : World CP)
    (out : outcome (result nat rerrors.Error)) (w' : World CP) : Prop :=
  extends w w'
  ∧ ∀ p, out = Returned (Ok p) →
      (List.length (heap w) ≤ p)%nat
      ∧ (∀ d, imageCache w' !! d ≠ Some p)
      ∧ ∃ image stored ref,
          imageCache w' !! dgst = Some image
          ∧ image ≠ p
          ∧ heap w' !! image = Some stored
          ∧ heap w' !! p = Some (Image.set_DockerImageReference ref stored).


(** The digest [Tags] reads off a history: that of its first item, when the
    history has one and its image parses. *)
Definition headDigest `{!Libraries} (history : NamedTagEventList.t)
  : option string :=
  match NamedTagEventList.Items history with
  | [] => None
  | item0 :: _ =>
    match digest_Parse (TagEvent.Image item0) with
    | Ok dgst => Some dgst
    | Err _ => None
    end
  end.

(** The mapping [CreateImageStreamMapping] sends, [ism] in the source. *)
Definition mappingOf {CP} (ist : imageStream CP) (tag : string) (image : Image.t)
  : ImageStreamMapping.t :=
  ImageStreamMapping.Build
    (ObjectMeta.Build (name ist) (namespace ist) ∅) image tag.

(** The stream [CreateImageStreamMapping] provisions, [stream] in the
    source. *)
Definition provisionedStream {CP} (ist : imageStream CP) : ImageStream.t :=
  ImageStream.set_Name (name ist) ImageStream.empty.

(** The error of a mapping creation says that the stream of the mapping was
    not found: a status error of code 404 whose details name the kind
    [imagestreammappings] and the stream. *)
Definition targetStreamNotFound {CP} (ist : imageStream CP) (err : error) : bool :=
  match err with
  | StatusError status =>
    match Status.Details status with
    | Some details =>
      String.eqb (StatusDetails.Kind details) "imagestreammappings"
      && Z.eqb (Status.Code status) StatusNotFound
      && String.eqb (StatusDetails.Name details) (name ist)
    | None => false
    end
  | _ => false
  end.

(** The run on [w] made the one call [CallImageStreamMappingsCreate], which
    was answered [r], and returned: no error when [code] is [None], an error
    of this code otherwise. *)
Definition endsAfterFirstAttempt {CP} `{!KErrors}
    (ist : imageStream CP) (userClient : client.Interface CP) (tag : string)
    (image : Image.t) (w : World CP) (r : result Status.t error)
    (code : option string) : Prop :=
  ∃ out w',
    CreateImageStreamMapping ist userClient tag image w = (Returned out, w')
    ∧ rerrors.Code <$> out = code
    ∧ trace w'
      = trace w ++ [CallImageStreamMappingsCreate (namespace ist)
                      (mappingOf ist tag image) r]
    ∧ cachedImageStream w' = cachedImageStream w.

(** ** Predicates on runs *)

Definition isImagesGet (c : Call) : bool :=
  match c with CallImagesGet _ _ => true | _ => false end.

(** The error a call was answered with, if any. *)
Definition answerError (c : Call) : option error :=
  match c with
  | CallImagesGet _ (Err err)
  | CallImageStreamsGet _ _ (Err err)
  | CallImageStreamsLayers _ _ (Err err)
  | CallImageStreamsCreate _ _ (Err err)
  | CallImageStreamMappingsCreate _ _ (Err err) => Some err
  | _ => None
  end.

(** [emits P m]: every run of [m] adds to the trace only calls that
    satisfy [P]. *)
Definition emits {CP A} (P : Call → Prop) (m : M (CP:=CP) A) : Prop :=
  ∀ w out w', m w = (out, w') →
    ∃ calls, trace w' = trace w ++ calls ∧ Forall P calls.

(** [fetchOf dgst c]: when [c] is a call for an image, it is for [dgst]. *)
Definition fetchOf (dgst : string) (c : Call) : Prop :=
  match c with CallImagesGet name _ => name = dgst | _ => True end.


(** * Properties *)

Section Run.
Context {CP : Type}.
Implicit Types (w : World CP).

(** Running a sequence: the first step, then the rest on its result. *)
Lemma bind_run {A B} (m : M A) (k : A → M B) w a w1 :
  m w = (Returned a, w1) → bind m k w = k a w1.
Proof. intros Hm. unfold bind. by rewrite Hm. Qed.

Lemma bind_panic {A B} (m : M A) (k : A → M B) w w1 :
  m w = (Panicked, w1) → bind m k w = (Panicked, w1).
Proof. intros Hm. unfold bind. by rewrite Hm. Qed.

(** What a finished sequence went through. *)
Lemma bind_inv {A B} (m : M A) (k : A → M B) w out w2 :
  bind m k w = (out, w2) →
  (∃ a w1, m w = (Returned a, w1) ∧ k a w1 = (out, w2))
  ∨ (m w = (Panicked, w2) ∧ out = Panicked).
Proof.
  unfold bind. destruct (m w) as [[a|] w1]; intros Hk.
  - left. eauto.
  - right. by inversion Hk.
Qed.

Lemma deref_run p img w :
  heap w !! p = Some img → deref p w = (Returned img, w).
Proof. intros Hp. unfold deref. by rewrite Hp. Qed.

Lemma alloc_run (img : Image.t) w :
  ∃ w1, alloc img w = (Returned (List.length (heap w)), w1)
        ∧ heap w1 = heap w ++ [img]
        ∧ trace w1 = trace w
        ∧ imageCache w1 = imageCache w
        ∧ cachedImageStream w1 = cachedImageStream w.
Proof. eexists. unfold alloc. by repeat split. Qed.
End Run.

Section Resolution.
Context {CP : Type}.
Context `{kerrors : !KErrors, libraries : !Libraries, originUtil : !OriginUtil,
          getterCodes : !GetterCodes, runtime : !GoRuntime}.
Implicit Types (ist : imageStream CP) (dgst : string) (w : World CP).

Lemma getStoredImageOfImageStream_run ist dgst tagEvent image w w1 w2 :
  ResolveImageID ist dgst w = (Returned (Ok tagEvent), w1) →
  getImage ist dgst w1 = (Returned (Ok image), w2) →
  getStoredImageOfImageStream ist dgst w = (Returned (Ok (image, tagEvent)), w2).
Proof.
  intros Hresolve Hget. unfold getStoredImageOfImageStream.
  rewrite (bind_run _ _ _ _ _ Hresolve). by rewrite (bind_run _ _ _ _ _ Hget).
Qed.

(** Direct resolution fails as soon as the digest does not resolve. *)
Lemma getImageOfImageStream_unresolved ist dgst err w w1 :
  ResolveImageID ist dgst w = (Returned (Err err), w1) →
  getImageOfImageStream ist dgst w = (Returned (Err err), w1).
Proof.
  intros Hresolve. unfold getImageOfImageStream, getStoredImageOfImageStream.
  rewrite (bind_run _ _ _ _ _ (bind_run _ _ _ _ _ Hresolve)). done.
Qed.

Lemma getImageOfImageStream_run ist dgst tagEvent image img w w1 w2 :
  ResolveImageID ist dgst w = (Returned (Ok tagEvent), w1) →
  getImage ist dgst w1 = (Returned (Ok image), w2) →
  heap w2 !! image = Some img →
  ∃ w3, getImageOfImageStream ist dgst w
        = (Returned (Ok (List.length (heap w2))), w3)
        ∧ heap w3
          = heap w2 ++ [Image.set_DockerImageReference
                          (TagEvent.DockerImageReference tagEvent) img].
Proof.
  intros Hresolve Hget Himg. unfold getImageOfImageStream.
  rewrite (bind_run _ _ _ _ _
             (getStoredImageOfImageStream_run _ _ _ _ _ _ _ Hresolve Hget)).
  rewrite (bind_run _ _ _ _ _ (deref_run _ _ _ Himg)).
  eexists. split; [reflexivity | done].
Qed.

(** C1. When [ResolveImageID] finds the tag event [tagEvent] of a digest
    and the image of the digest is fetched, stored as [img],
    [GetImageOfImageStream] succeeds, and the image it returns is [img]
    with [DockerImageReference] replaced by the reference the tag event
    records: every other field is the stored one. *)
Theorem GetImageOfImageStream_tagged ist dgst tagEvent image img w w1 w2 :
  ResolveImageID ist dgst w = (Returned (Ok tagEvent), w1) →
  getImage ist dgst w1 = (Returned (Ok image), w2) →
  heap w2 !! image = Some img →
  ∃ p w3 returned,
    GetImageOfImageStream ist dgst w = (Returned (Ok p), w3)
    ∧ heap w3 !! p = Some returned
    ∧ Image.DockerImageReference returned
      = TagEvent.DockerImageReference tagEvent
    ∧ returned
      = Image.set_DockerImageReference
          (TagEvent.DockerImageReference tagEvent) img
    ∧ Image.ObjectMeta returned = Image.ObjectMeta img
    ∧ Image.DockerImageMetadataVersion returned
      = Image.DockerImageMetadataVersion img
    ∧ Image.DockerImageManifest returned = Image.DockerImageManifest img
    ∧ Image.DockerImageLayers returned = Image.DockerImageLayers img
    ∧ Image.DockerImageManifestMediaType returned
      = Image.DockerImageManifestMediaType img
    ∧ Image.DockerImageConfig returned = Image.DockerImageConfig img.
Proof.
  intros Hresolve Hget Himg.
  destruct (getImageOfImageStream_run _ _ _ _ _ _ _ _ Hresolve Hget Himg)
    as (w3 & Hrun & Hheap).
  exists (List.length (heap w2)), w3. eexists. split.
  - unfold GetImageOfImageStream. by rewrite (bind_run _ _ _ _ _ Hrun).
  - split; [|by repeat split].
    rewrite Hheap. by rewrite lookup_app_r, Nat.sub_diag.
Qed.

(** The walk over the layers. *)

Lemma manifestsContain_elem_of manifests dgst :
  manifestsContain manifests dgst = true ↔ dgst ∈ manifests.
Proof.
  induction manifests as [|m rest IH]; simpl.
  - split; [done | by intros ?%elem_of_nil].
  - destruct (String.eqb_spec m dgst) as [->|Hne].
    + split; [intros _; left | done].
    + rewrite IH. split; [by right |].
      intros [?|?]%elem_of_cons; [congruence | done].
Qed.

Lemma findParent_none images dgst :
  (∀ parent ibr, (parent, ibr) ∈ images →
                 dgst ∉ ImageBlobReferences.Manifests ibr) →
  findParent images dgst = "".
Proof.
  induction images as [|[image ibr] rest IH]; intros Hnone; simpl; [done|].
  destruct (manifestsContain _ _) eqn:Hfound.
  - apply manifestsContain_elem_of in Hfound.
    destruct (Hnone image ibr (list_elem_of_here _ _)). done.
  - apply IH. intros parent ibr' Hin. apply (Hnone parent). by right.
Qed.

Lemma findParent_only images dgst parent ibr :
  (parent, ibr) ∈ images →
  dgst ∈ ImageBlobReferences.Manifests ibr →
  (∀ other ibr', (other, ibr') ∈ images →
                 dgst ∈ ImageBlobReferences.Manifests ibr' → other = parent) →
  findParent images dgst = parent.
Proof.
  induction images as [|[image ibr0] rest IH]; intros Hin Hmember Honly.
  - by apply elem_of_nil in Hin.
  - simpl. destruct (manifestsContain _ _) eqn:Hfound.
    + apply manifestsContain_elem_of in Hfound.
      apply (Honly image ibr0); [left | done].
    + apply elem_of_cons in Hin as [Heq|Hin].
      * inversion Heq; subst. apply manifestsContain_elem_of in Hmember.
        congruence.
      * apply IH; [done | done |].
        intros other ibr' Hin'. apply (Honly other ibr'). by right.
Qed.

Lemma range_Images_elem_of (m : gmap string ImageBlobReferences.t) parent ibr :
  (parent, ibr) ∈ range_Images m ↔ m !! parent = Some ibr.
Proof. rewrite range_Images_perm. apply elem_of_map_to_list. Qed.

Lemma resolveUpstreamRef_no_parent ist dgst layers w w1 :
  imageStreamGetter_layers ist w = (Returned (Ok layers), w1) →
  findParent (range_Images (ImageStreamLayers.Images layers)) dgst = "" →
  resolveUpstreamRef ist dgst w
  = (Returned (Err (rerrors.NewError ErrImageStreamImageNotFoundCode
                      ("resolveUpstreamRef: unable to find parent for image "
                       +:+ dgst +:+ " in image stream " +:+ Reference ist)
                      None)), w1).
Proof.
  intros Hlayers Hparent. unfold resolveUpstreamRef.
  rewrite (bind_run _ _ _ _ _ Hlayers). by rewrite Hparent.
Qed.

Lemma resolveUpstreamRef_parent ist dgst layers parent parentEvent parentRef
    w w1 w2 :
  imageStreamGetter_layers ist w = (Returned (Ok layers), w1) →
  findParent (range_Images (ImageStreamLayers.Images layers)) dgst = parent →
  parent ≠ "" →
  ResolveImageID ist parent w1 = (Returned (Ok parentEvent), w2) →
  reference_Parse (TagEvent.DockerImageReference parentEvent) = Ok parentRef →
  resolveUpstreamRef ist dgst w
  = (Returned (Ok (DockerImageReference.set_ID dgst
                     (DockerImageReference.set_Tag "" parentRef))), w2).
Proof.
  intros Hlayers Hparent Hne Hresolve Hparse. unfold resolveUpstreamRef.
  rewrite (bind_run _ _ _ _ _ Hlayers), Hparent.
  apply String.eqb_neq in Hne. rewrite Hne.
  rewrite (bind_run _ _ _ _ _ Hresolve). by rewrite Hparse.
Qed.

(** The run through the parent of a digest that does not resolve itself. *)
Lemma GetImageOfImageStream_child_run ist dgst err layers parent parentEvent
    parentRef image img w w1 w2 w3 w4 :
  ResolveImageID ist dgst w = (Returned (Err err), w1) →
  imageStreamGetter_layers ist w1 = (Returned (Ok layers), w2) →
  findParent (range_Images (ImageStreamLayers.Images layers)) dgst = parent →
  parent ≠ "" →
  ResolveImageID ist parent w2 = (Returned (Ok parentEvent), w3) →
  reference_Parse (TagEvent.DockerImageReference parentEvent) = Ok parentRef →
  getImage ist dgst w3 = (Returned (Ok image), w4) →
  heap w4 !! image = Some img →
  ∃ w5, GetImageOfImageStream ist dgst w
        = (Returned (Ok (List.length (heap w4))), w5)
        ∧ heap w5
          = heap w4
            ++ [Image.set_DockerImageReference
                  (reference_String
                     (DockerImageReference.set_ID dgst
                        (DockerImageReference.set_Tag "" parentRef))) img].
Proof.
  intros Hdirect Hlayers Hparent Hne Hresolve Hparse Hget Himg.
  unfold GetImageOfImageStream.
  rewrite (bind_run _ _ _ _ _ (getImageOfImageStream_unresolved _ _ _ _ _ Hdirect)).
  rewrite (bind_run _ _ _ _ _
             (resolveUpstreamRef_parent _ _ _ _ _ _ _ _ _
                Hlayers Hparent Hne Hresolve Hparse)).
  rewrite (bind_run _ _ _ _ _ Hget).
  rewrite (bind_run _ _ _ _ _ (deref_run _ _ _ Himg)).
  eexists. split; [reflexivity | done].
Qed.

(** C2, as amended. A digest that does not resolve in the tag history and
    is a member of exactly one entry [parent] of the layers view, whose key
    is not empty: when [parent] resolves to a tag event whose reference
    parses and the image of the digest is fetched, the image returned
    carries the parent's reference with registry, namespace and name kept,
    the tag emptied and the ID set to the digest. *)
Theorem GetImageOfImageStream_child_of_only_parent ist dgst err layers parent
    ibr parentEvent parentRef image img w w1 w2 w3 w4 :
  ResolveImageID ist dgst w = (Returned (Err err), w1) →
  imageStreamGetter_layers ist w1 = (Returned (Ok layers), w2) →
  ImageStreamLayers.Images layers !! parent = Some ibr →
  dgst ∈ ImageBlobReferences.Manifests ibr →
  (∀ other ibr', ImageStreamLayers.Images layers !! other = Some ibr' →
                 dgst ∈ ImageBlobReferences.Manifests ibr' → other = parent) →
  parent ≠ "" →
  ResolveImageID ist parent w2 = (Returned (Ok parentEvent), w3) →
  reference_Parse (TagEvent.DockerImageReference parentEvent) = Ok parentRef →
  getImage ist dgst w3 = (Returned (Ok image), w4) →
  heap w4 !! image = Some img →
  ∃ p w5 returned,
    GetImageOfImageStream ist dgst w = (Returned (Ok p), w5)
    ∧ heap w5 !! p = Some returned
    ∧ Image.DockerImageReference returned
      = reference_String
          (DockerImageReference.Build
             (DockerImageReference.Registry parentRef)
             (DockerImageReference.Namespace parentRef)
             (DockerImageReference.Name parentRef) "" dgst)
    ∧ returned
      = Image.set_DockerImageReference (Image.DockerImageReference returned) img.
Proof.
  intros Hdirect Hlayers Hparent Hmember Honly Hne Hresolve Hparse Hget Himg.
  assert (findParent (range_Images (ImageStreamLayers.Images layers)) dgst
          = parent) as Hfound.
  { apply (findParent_only _ _ _ ibr); [by apply range_Images_elem_of | done |].
    intros other ibr' Hin. apply Honly. by apply range_Images_elem_of. }
  destruct (GetImageOfImageStream_child_run _ _ _ _ _ _ _ _ _ _ _ _ _ _
              Hdirect Hlayers Hfound Hne Hresolve Hparse Hget Himg)
    as (w5 & Hrun & Hheap).
  exists (List.length (heap w4)), w5. eexists. split; [exact Hrun|].
  split; [rewrite Hheap; by rewrite lookup_app_r, Nat.sub_diag|].
  by split.
Qed.

(** C3. A digest that does not resolve in the tag history and is a member
    of no entry of the layers view: [GetImageOfImageStream] fails with the
    code ImageNotFound. *)
Theorem GetImageOfImageStream_not_found ist dgst err layers w w1 w2 :
  ResolveImageID ist dgst w = (Returned (Err err), w1) →
  imageStreamGetter_layers ist w1 = (Returned (Ok layers), w2) →
  (∀ parent ibr, ImageStreamLayers.Images layers !! parent = Some ibr →
                 dgst ∉ ImageBlobReferences.Manifests ibr) →
  ∃ rerr, GetImageOfImageStream ist dgst w = (Returned (Err rerr), w2)
          ∧ rerrors.Code rerr = ErrImageStreamImageNotFoundCode.
Proof.
  intros Hdirect Hlayers Hnone.
  assert (findParent (range_Images (ImageStreamLayers.Images layers)) dgst = "")
    as Hparent.
  { apply findParent_none. intros parent ibr Hin.
    apply (Hnone parent). by apply range_Images_elem_of. }
  eexists. split.
  - unfold GetImageOfImageStream.
    rewrite (bind_run _ _ _ _ _
               (getImageOfImageStream_unresolved _ _ _ _ _ Hdirect)).
    by rewrite (bind_run _ _ _ _ _
                  (resolveUpstreamRef_no_parent _ _ _ _ _ Hlayers Hparent)).
  - done.
Qed.

(** The messages say which function failed. *)
Lemma ResolveImageID_message ist dgst err w w' :
  ResolveImageID ist dgst w = (Returned (Err err), w') →
  strings_HasPrefix (rerrors.Message err) "ResolveImageID: " = true.
Proof.
  unfold ResolveImageID. intros Hrun.
  apply bind_inv in Hrun as [([stream|rErr] & w1 & _ & Hrest)|[_ [=]]].
  - destruct (util_ResolveImageID stream dgst); by inversion Hrest.
  - by inversion Hrest.
Qed.

Lemma getImage_message ist dgst err w w' :
  getImage ist dgst w = (Returned (Err err), w') →
  strings_HasPrefix (rerrors.Message err) "getImage: " = true.
Proof.
  unfold getImage. intros Hrun.
  apply bind_inv in Hrun as [([image|e] & w1 & _ & Hrest)|[_ [=]]]; [done|].
  destruct (IsNotFound e); by inversion Hrest.
Qed.

Lemma getImageOfImageStream_message ist dgst err w w' :
  getImageOfImageStream ist dgst w = (Returned (Err err), w') →
  strings_HasPrefix (rerrors.Message err) "ResolveImageID: " = true
  ∨ strings_HasPrefix (rerrors.Message err) "getImage: " = true.
Proof.
  unfold getImageOfImageStream, getStoredImageOfImageStream. intros Hrun.
  apply bind_inv in Hrun as [(r & w2 & Hstored & Hrest)|[_ [=]]].
  apply bind_inv in Hstored as [([tagEvent|e] & w1 & Hresolve & Hstored)|[_ [=]]].
  - apply bind_inv in Hstored as [([image|e] & w1' & Hget & Hret)|[_ [=]]];
      inversion Hret; subst.
    + apply bind_inv in Hrest as [(img & ? & _ & Hrest)|[_ [=]]].
      apply bind_inv in Hrest as [(p & ? & _ & Hrest)|[_ [=]]]. done.
    + inversion Hrest; subst. right. by eapply getImage_message.
  - inversion Hstored; subst. inversion Hrest; subst. left.
    by eapply ResolveImageID_message.
Qed.

Lemma resolveUpstreamRef_message ist dgst err w w' :
  resolveUpstreamRef ist dgst w = (Returned (Err err), w') →
  strings_HasPrefix (rerrors.Message err) "resolveUpstreamRef: " = true.
Proof.
  unfold resolveUpstreamRef. intros Hrun.
  apply bind_inv in Hrun as [([layers|rErr] & w1 & _ & Hrest)|[_ [=]]];
    [|by inversion Hrest].
  destruct (String.eqb _ _); [by inversion Hrest|].
  apply bind_inv in Hrest as [([parentTagEvent|rErr] & w2 & _ & Hrest)|[_ [=]]];
    [|by inversion Hrest].
  destruct (reference_Parse _); by inversion Hrest.
Qed.

Lemma messages_differ (direct parent : string) :
  strings_HasPrefix direct "ResolveImageID: " = true
  ∨ strings_HasPrefix direct "getImage: " = true →
  strings_HasPrefix parent "resolveUpstreamRef: " = true →
  parent ≠ direct.
Proof.
  intros Hdirect Hparent ->.
  destruct direct as [|c rest]; [by destruct Hdirect|].
  destruct c as [[] [] [] [] [] [] [] []]; simpl in Hparent;
    try discriminate Hparent.
  simpl in Hdirect. destruct Hdirect; discriminate.
Qed.

(** C8. When direct resolution fails and the resolution through the
    parent fails after it, [GetImageOfImageStream] returns the error of the
    resolution through the parent as it is, code, message and cause; the
    error of the direct resolution is dropped, and its message, which names
    [ResolveImageID] or [getImage], is not the one returned, which names
    [resolveUpstreamRef]. With no parent in the layers view the error
    returned has the code ImageNotFound and no cause. *)
Theorem GetImageOfImageStream_reports_parent_failure ist dgst direct parentErr
    w w1 w2 :
  getImageOfImageStream ist dgst w = (Returned (Err direct), w1) →
  resolveUpstreamRef ist dgst w1 = (Returned (Err parentErr), w2) →
  GetImageOfImageStream ist dgst w = (Returned (Err parentErr), w2)
  ∧ rerrors.Message parentErr ≠ rerrors.Message direct
  ∧ strings_HasPrefix (rerrors.Message parentErr) "resolveUpstreamRef: " = true
  ∧ (∀ layers w', imageStreamGetter_layers ist w1 = (Returned (Ok layers), w') →
       findParent (range_Images (ImageStreamLayers.Images layers)) dgst = "" →
       parentErr
       = rerrors.NewError ErrImageStreamImageNotFoundCode
           ("resolveUpstreamRef: unable to find parent for image " +:+ dgst
            +:+ " in image stream " +:+ Reference ist)
           None).
Proof.
  intros Hdirect Hparent. split; [|split; [|split]].
  - unfold GetImageOfImageStream.
    rewrite (bind_run _ _ _ _ _ Hdirect). by rewrite (bind_run _ _ _ _ _ Hparent).
  - apply messages_differ.
    + by eapply getImageOfImageStream_message.
    + by eapply resolveUpstreamRef_message.
  - by eapply resolveUpstreamRef_message.
  - intros layers w' Hlayers Hnone.
    rewrite (resolveUpstreamRef_no_parent _ _ _ _ _ Hlayers Hnone) in Hparent.
    by inversion Hparent.
Qed.
End Resolution.

Section Frame.
Context {CP : Type}.
Context `{kerrors : !KErrors, libraries : !Libraries, originUtil : !OriginUtil,
          getterCodes : !GetterCodes, runtime : !GoRuntime}.
Implicit Types (ist : imageStream CP) (dgst : string) (w : World CP).

Lemma extends_refl w : extends w w.
Proof. repeat split; [done | done | by left]. Qed.

Lemma extends_trans w1 w2 w3 : extends w1 w2 → extends w2 w3 → extends w1 w3.
Proof.
  intros (Hheap12 & Htrace12 & Hcache12) (Hheap23 & Htrace23 & Hcache23).
  split; [by etrans|]. split; [by etrans|].
  intros dgst image Hin.
  destruct (Hcache23 _ _ Hin) as [Hold|(Hfresh & img & Himg & Hcall)].
  - destruct (Hcache12 _ _ Hold) as [?|(Hfresh & img & Himg & Hcall)];
      [by left | right].
    split; [done|]. exists img. split.
    + by eapply prefix_lookup_Some.
    + destruct Htrace23 as [k ->]. apply elem_of_app. by left.
  - right. split; [|by eauto].
    apply prefix_length in Hheap12. lia.
Qed.

Lemma extends_cacheInHeap w w' : extends w w' → cacheInHeap w → cacheInHeap w'.
Proof.
  intros (Hheap & _ & Hcache) Hwf dgst image Hin.
  destruct (Hcache _ _ Hin) as [Hold|(_ & img & Himg & _)].
  - apply Hwf in Hold. apply prefix_length in Hheap. lia.
  - by eapply lookup_lt_Some.
Qed.

Lemma steady_ret {A} (a : A) : steady (CP:=CP) (ret a).
Proof. intros w out w' [= _ <-]. apply extends_refl. Qed.

Lemma steady_panic {A} : steady (CP:=CP) (A:=A) panic.
Proof. intros w out w' [= _ <-]. apply extends_refl. Qed.

Lemma steady_bind {A B} (m : M A) (k : A → M B) :
  steady (CP:=CP) m → (∀ a, steady (k a)) → steady (bind m k).
Proof.
  intros Hm Hk w out w' Hrun.
  apply bind_inv in Hrun as [(a & w1 & Hrun1 & Hrun2)|[Hrun1 _]].
  - eapply extends_trans; [by eapply Hm | by eapply Hk].
  - by eapply Hm.
Qed.

Lemma steady_call {A} (op : CP → A * CP) (ev : A → Call) :
  steady (call op ev).
Proof.
  intros w out w'. unfold call. destruct (op _) as [r cp]. intros [= _ <-].
  repeat split; simpl; [done | by apply prefix_app_r | by left].
Qed.

Lemma steady_deref p : steady (CP:=CP) (deref p).
Proof.
  intros w out w'. unfold deref. destruct (_ !! _); intros [= _ <-];
    apply extends_refl.
Qed.

Lemma steady_alloc img : steady (CP:=CP) (alloc img).
Proof.
  intros w out w'. unfold alloc. intros [= _ <-].
  repeat split; simpl; [by apply prefix_app_r | done | by left].
Qed.

Lemma steady_cacheImageStream stream : steady (CP:=CP) (cacheImageStream stream).
Proof.
  intros w out w'. unfold cacheImageStream. intros [= _ <-].
  repeat split; simpl; [done | done | by left].
Qed.

Lemma steady_imageClient_Get ist dgst : steady (imageClient_Get ist dgst).
Proof.
  intros w out w'. unfold imageClient_Get.
  destruct (imageCache w !! dgst) as [image|] eqn:Hcache.
  { intros [= _ <-]. apply extends_refl. }
  unfold bind, call. destruct (client.Images_Get _ _ _) as [[img|err] cp].
  - simpl. intros [= _ <-]. repeat split; simpl.
    + by apply prefix_app_r.
    + by apply prefix_app_r.
    + intros d image. destruct (decide (dgst = d)) as [<-|Hne].
      * rewrite lookup_insert_eq. intros [= <-]. right. split; [done|].
        exists img. split; [by rewrite lookup_app_r, Nat.sub_diag|].
        apply elem_of_app. right. apply list_elem_of_here.
      * rewrite lookup_insert_ne by done. by left.
  - simpl. intros [= _ <-]. repeat split; simpl;
      [done | by apply prefix_app_r | by left].
Qed.

(** The address [imageClient_Get] answers with is the one it holds for
    the digest afterwards. *)
Lemma imageClient_Get_cached ist dgst image w w' :
  imageClient_Get ist dgst w = (Returned (Ok image), w') →
  imageCache w' !! dgst = Some image.
Proof.
  unfold imageClient_Get.
  destruct (imageCache w !! dgst) as [held|] eqn:Hcache.
  { by intros [= <- <-]. }
  unfold bind, call. destruct (client.Images_Get _ _ _) as [[img|err] cp];
    simpl; intros [= <- <-]; simpl.
  apply lookup_insert_eq.
Qed.

Lemma steady_imageStreamGetter_get ist : steady (imageStreamGetter_get ist).
Proof.
  intros w out w'. unfold imageStreamGetter_get.
  destruct (cachedImageStream w).
  { intros [= _ <-]. apply extends_refl. }
  revert w out w'. apply steady_bind; [apply steady_call|].
  intros [stream|err]; [|apply steady_ret].
  apply steady_bind; [apply steady_cacheImageStream | intros; apply steady_ret].
Qed.

Lemma steady_imageStreamGetter_layers ist : steady (imageStreamGetter_layers ist).
Proof.
  intros w out w'. unfold imageStreamGetter_layers.
  destruct (cachedImageStreamLayers w).
  { intros [= _ <-]. apply extends_refl. }
  revert w out w'. apply steady_bind; [apply steady_call|].
  intros [layers|err]; [|apply steady_ret].
  intros w out w' [= _ <-]. repeat split; simpl; [done | done | by left].
Qed.

Lemma steady_getImage ist dgst : steady (getImage ist dgst).
Proof.
  apply steady_bind; [apply steady_imageClient_Get|].
  intros [image|err]; [apply steady_ret|].
  destruct (IsNotFound err); apply steady_ret.
Qed.

Lemma getImage_cached ist dgst image w w' :
  getImage ist dgst w = (Returned (Ok image), w') →
  imageCache w' !! dgst = Some image.
Proof.
  unfold getImage. intros Hrun.
  apply bind_inv in Hrun as [([held|err] & w1 & Hget & Hrest)|[_ [=]]].
  - inversion Hrest; subst. by eapply imageClient_Get_cached.
  - by destruct (IsNotFound err).
Qed.

Lemma steady_ResolveImageID ist dgst : steady (ResolveImageID ist dgst).
Proof.
  apply steady_bind; [apply steady_imageStreamGetter_get|].
  intros [stream|err]; [|apply steady_ret].
  destruct (util_ResolveImageID stream dgst); apply steady_ret.
Qed.

Lemma steady_getStoredImageOfImageStream ist dgst :
  steady (getStoredImageOfImageStream ist dgst).
Proof.
  apply steady_bind; [apply steady_ResolveImageID|].
  intros [tagEvent|err]; [|apply steady_ret].
  apply steady_bind; [apply steady_getImage|].
  intros [image|err]; apply steady_ret.
Qed.

Lemma steady_getImageOfImageStream ist dgst :
  steady (getImageOfImageStream ist dgst).
Proof.
  apply steady_bind; [apply steady_getStoredImageOfImageStream|].
  intros [[image tagEvent]|err]; [|apply steady_ret].
  apply steady_bind; [apply steady_deref|]. intros img.
  apply steady_bind; [apply steady_alloc | intros; apply steady_ret].
Qed.

Lemma steady_resolveUpstreamRef ist dgst : steady (resolveUpstreamRef ist dgst).
Proof.
  apply steady_bind; [apply steady_imageStreamGetter_layers|].
  intros [layers|err]; [|apply steady_ret].
  simpl. destruct (String.eqb _ _); [apply steady_ret|].
  apply steady_bind; [apply steady_ResolveImageID|].
  intros [parentTagEvent|err]; [|apply steady_ret].
  destruct (reference_Parse _); apply steady_ret.
Qed.

Lemma steady_GetImageOfImageStream ist dgst :
  steady (GetImageOfImageStream ist dgst).
Proof.
  apply steady_bind; [apply steady_getImageOfImageStream|].
  intros [isImage|direct]; [apply steady_ret|].
  apply steady_bind; [apply steady_resolveUpstreamRef|].
  intros [ref|err]; [|apply steady_ret].
  apply steady_bind; [apply steady_getImage|].
  intros [image|err]; [|apply steady_ret].
  apply steady_bind; [apply steady_deref|]. intros img.
  apply steady_bind; [apply steady_alloc | intros; apply steady_ret].
Qed.

Lemma copy_inv dgst ref image p w2 w' :
  imageCache w2 !! dgst = Some image →
  (img <- deref image;;
   p <- alloc (Image.set_DockerImageReference ref img);;
   ret (Ok (E:=rerrors.Error) p)) w2 = (Returned (Ok p), w') →
  copied dgst ref p w2 w'.
Proof.
  intros Hcache Hrun. unfold bind, deref in Hrun.
  destruct (heap w2 !! image) as [stored|] eqn:Hstored; [|done].
  simpl in Hrun. inversion Hrun; subst. by exists image, stored.
Qed.

Lemma getImageOfImageStream_inv ist dgst p w w' :
  getImageOfImageStream ist dgst w = (Returned (Ok p), w') →
  ∃ ref w2, extends w w2 ∧ copied dgst ref p w2 w'.
Proof.
  unfold getImageOfImageStream. intros Hrun.
  apply bind_inv in Hrun as [([[image tagEvent]|err] & w2 & Hstored & Hrest)|[_ [=]]];
    [|done].
  exists (TagEvent.DockerImageReference tagEvent), w2.
  split; [by eapply steady_getStoredImageOfImageStream|].
  eapply copy_inv; [|exact Hrest].
  unfold getStoredImageOfImageStream in Hstored.
  apply bind_inv in Hstored as [([e|err] & w1 & _ & Hrest1)|[_ [=]]]; [|done].
  apply bind_inv in Hrest1 as [([held|err] & w1' & Hget & Hret)|[_ [=]]]; [|done].
  inversion Hret; subst. by eapply getImage_cached.
Qed.

Lemma GetImageOfImageStream_inv ist dgst p w w' :
  GetImageOfImageStream ist dgst w = (Returned (Ok p), w') →
  ∃ ref w2, extends w w2 ∧ copied dgst ref p w2 w'.
Proof.
  unfold GetImageOfImageStream. intros Hrun.
  apply bind_inv in Hrun as [([isImage|direct] & w1 & Hdirect & Hrest)|[_ [=]]].
  { inversion Hrest; subst. by eapply getImageOfImageStream_inv. }
  apply bind_inv in Hrest as [([ref|err] & w2 & Hparent & Hrest)|[_ [=]]]; [|done].
  apply bind_inv in Hrest as [([image|err] & w3 & Hget & Hrest)|[_ [=]]]; [|done].
  exists (reference_String ref), w3. split.
  - eapply extends_trans; [by eapply steady_getImageOfImageStream|].
    eapply extends_trans; [by eapply steady_resolveUpstreamRef|].
    by eapply steady_getImage.
  - eapply copy_inv; [|exact Hrest]. by eapply getImage_cached.
Qed.

Lemma copied_untouched dgst ref p w w2 w' :
  cacheInHeap w → extends w w2 → copied dgst ref p w2 w' →
  (List.length (heap w) ≤ p)%nat
  ∧ (∀ d, imageCache w' !! d ≠ Some p)
  ∧ ∃ image stored ref,
      imageCache w' !! dgst = Some image
      ∧ image ≠ p
      ∧ heap w' !! image = Some stored
      ∧ heap w' !! p = Some (Image.set_DockerImageReference ref stored).
Proof.
  intros Hwf Hext (image & stored & Hcache & Hstored & -> & Hheap & Hcache' & _).
  pose proof (extends_cacheInHeap _ _ Hext Hwf) as Hwf2.
  split; [destruct Hext as [?%prefix_length _]; lia|].
  split.
  - intros d Hd. rewrite Hcache' in Hd. apply Hwf2 in Hd. lia.
  - exists image, stored, ref. rewrite Hcache', Hheap.
    pose proof (Hwf2 _ _ Hcache). repeat split; [done | lia | |].
    + by apply lookup_app_l_Some.
    + by rewrite lookup_app_r, Nat.sub_diag.
Qed.

(** C9. Neither [getImageOfImageStream] nor [GetImageOfImageStream]
    writes to an image it got from the image getter. Run from a state
    whose getter holds addresses of objects, each leaves every object that
    was in memory as it was, the getter holds for a digest the address it
    held or that of the image a call has just delivered, and the image
    returned is a new object, held by no getter, which equals the getter's
    object for the digest in every field but [DockerImageReference]. *)
Theorem GetImageOfImageStream_frame ist dgst w :
  cacheInHeap w →
  (∀ out w', getImageOfImageStream ist dgst w = (out, w') →
             imagesUntouched dgst w out w')
  ∧ (∀ out w', GetImageOfImageStream ist dgst w = (out, w') →
               imagesUntouched dgst w out w').
Proof.
  intros Hwf. split; intros out w' Hrun; split.
  - by eapply steady_getImageOfImageStream.
  - intros p ->. apply getImageOfImageStream_inv in Hrun as (ref & w2 & ? & ?).
    by eapply copied_untouched.
  - by eapply steady_GetImageOfImageStream.
  - intros p ->. apply GetImageOfImageStream_inv in Hrun as (ref & w2 & ? & ?).
    by eapply copied_untouched.
Qed.
End Frame.

Section Policy.
Context {CP : Type}.
Context `{kerrors : !KErrors, libraries : !Libraries, originUtil : !OriginUtil,
          getterCodes : !GetterCodes, runtime : !GoRuntime}.
Implicit Types (ist : imageStream CP) (dgst tag : string) (w : World CP).

Lemma length_eqb_0 (s : string) : Nat.eqb (String.length s) 0 = true ↔ s = "".
Proof. destruct s; simpl; split; congruence. Qed.

Lemma specTagInsecure_first (tags pre post : list TagReference.t) t tag :
  tags = pre ++ t :: post →
  TagReference.Name t = tag →
  (∀ t', t' ∈ pre → TagReference.Name t' ≠ tag) →
  specTagInsecure tags tag
  = Some (TagImportPolicy.Insecure (TagReference.ImportPolicy t)).
Proof.
  intros -> Hname. induction pre as [|t0 pre IH]; intros Hpre; simpl.
  - apply String.eqb_eq in Hname. by rewrite Hname.
  - assert (TagReference.Name t0 ≠ tag) as Hne by (apply Hpre; left).
    apply String.eqb_neq in Hne. rewrite Hne. apply IH.
    intros t' Hin. apply Hpre. by right.
Qed.

Lemma specTagInsecure_absent (tags : list TagReference.t) tag :
  (∀ t, t ∈ tags → TagReference.Name t ≠ tag) →
  specTagInsecure tags tag = None.
Proof.
  induction tags as [|t0 tags IH]; intros Hnone; simpl; [done|].
  assert (TagReference.Name t0 ≠ tag) as Hne by (apply Hnone; left).
  apply String.eqb_neq in Hne. rewrite Hne. apply IH.
  intros t Hin. apply Hnone. by right.
Qed.

(** [TagIsInsecure] once the stream is at hand and not insecure as a
    whole, for a tag name that is not empty. *)
Lemma TagIsInsecure_named ist tag dgst stream w w1 :
  imageStreamGetter_get ist w = (Returned (Ok stream), w1) →
  default "" (ObjectMeta.Annotations (ImageStream.ObjectMeta stream)
                !! InsecureRepositoryAnnotation) ≠ "true" →
  tag ≠ "" →
  TagIsInsecure ist tag dgst w
  = (Returned (Ok (default false
                     (specTagInsecure
                        (ImageStreamSpec.Tags (ImageStream.Spec stream)) tag))),
     w1).
Proof.
  intros Hget Hsecure Htag. unfold TagIsInsecure.
  rewrite (bind_run _ _ _ _ _ Hget).
  apply String.eqb_neq in Hsecure. rewrite Hsecure.
  assert (Nat.eqb (String.length tag) 0 = false) as Hlen.
  { apply not_true_is_false. by rewrite length_eqb_0. }
  cbv zeta. rewrite !Hlen. simpl. by destruct (specTagInsecure _ _).
Qed.

(** C4. With the stream at hand, [TagIsInsecure] answers true for every
    tag and digest when the annotation of the insecure repository is
    ["true"], whatever the import policies say. When it is not (unset or
    another value) and a tag name is given, the answer is the [Insecure]
    flag of the import policy of the first tag of the spec with that name,
    and false when the spec has no such tag. With an empty tag name the
    name is the one [util.LatestImageTagEvent] finds for the digest, and
    the answer is that of the same lookup under this name; it is false
    when no name is found. *)
Theorem TagIsInsecure_policy ist stream w w1 :
  imageStreamGetter_get ist w = (Returned (Ok stream), w1) →
  let annotation :=
    default "" (ObjectMeta.Annotations (ImageStream.ObjectMeta stream)
                  !! InsecureRepositoryAnnotation) in
  let tags := ImageStreamSpec.Tags (ImageStream.Spec stream) in
  (annotation = "true" →
   ∀ tag dgst, TagIsInsecure ist tag dgst w = (Returned (Ok true), w1))
  ∧ (annotation ≠ "true" →
     ∀ tag dgst, tag ≠ "" →
       (∀ pre t post,
          tags = pre ++ t :: post →
          TagReference.Name t = tag →
          (∀ t', t' ∈ pre → TagReference.Name t' ≠ tag) →
          TagIsInsecure ist tag dgst w
          = (Returned (Ok (TagImportPolicy.Insecure
                             (TagReference.ImportPolicy t))), w1))
       ∧ ((∀ t, t ∈ tags → TagReference.Name t ≠ tag) →
          TagIsInsecure ist tag dgst w = (Returned (Ok false), w1)))
  ∧ (annotation ≠ "true" →
     ∀ dgst,
       let resolved := fst (util_LatestImageTagEvent stream dgst) in
       (resolved ≠ "" →
        TagIsInsecure ist "" dgst w = TagIsInsecure ist resolved dgst w)
       ∧ (resolved = "" →
          TagIsInsecure ist "" dgst w = (Returned (Ok false), w1))).
Proof.
  intros Hget annotation tags. split; [|split].
  - intros Hinsecure tag dgst. unfold TagIsInsecure.
    rewrite (bind_run _ _ _ _ _ Hget).
    unfold annotation in Hinsecure. cbv zeta. by rewrite Hinsecure.
  - intros Hsecure tag dgst Htag. split.
    + intros pre t post Htags Hname Hpre.
      rewrite (TagIsInsecure_named _ _ _ _ _ _ Hget Hsecure Htag).
      fold tags. by rewrite (specTagInsecure_first _ _ _ _ _ Htags Hname Hpre).
    + intros Hnone.
      rewrite (TagIsInsecure_named _ _ _ _ _ _ Hget Hsecure Htag).
      fold tags. by rewrite (specTagInsecure_absent _ _ Hnone).
  - intros Hsecure dgst resolved. split.
    + intros Hresolved.
      rewrite (TagIsInsecure_named _ _ _ _ _ _ Hget Hsecure Hresolved).
      unfold TagIsInsecure. rewrite (bind_run _ _ _ _ _ Hget).
      unfold annotation in Hsecure.
      apply String.eqb_neq in Hsecure. cbv zeta. rewrite Hsecure. simpl.
      fold resolved.
      assert (Nat.eqb (String.length resolved) 0 = false) as Hlen.
      { apply not_true_is_false. by rewrite length_eqb_0. }
      rewrite Hlen. simpl. by destruct (specTagInsecure _ _).
    + intros Hresolved. unfold TagIsInsecure.
      rewrite (bind_run _ _ _ _ _ Hget).
      unfold annotation in Hsecure.
      apply String.eqb_neq in Hsecure. cbv zeta. rewrite Hsecure. simpl.
      fold resolved. by rewrite Hresolved.
Qed.

Lemma tagsLoop_cons history rest (m : gmap string string) :
  tagsLoop (history :: rest) m
  = tagsLoop rest (match headDigest history with
                   | Some dgst => <[NamedTagEventList.Tag history := dgst]> m
                   | None => m
                   end).
Proof.
  unfold headDigest. simpl.
  destruct (NamedTagEventList.Items history) as [|item0 ?]; [done|].
  by destruct (digest_Parse _).
Qed.

Lemma tagsLoop_app pre post (m : gmap string string) :
  tagsLoop (pre ++ post) m = tagsLoop post (tagsLoop pre m).
Proof.
  revert m. induction pre as [|history pre IH]; intros m; [done|].
  rewrite <- app_comm_cons, !tagsLoop_cons. apply IH.
Qed.

Lemma tagsLoop_skip histories (m : gmap string string) tag :
  (∀ history, history ∈ histories → NamedTagEventList.Tag history = tag →
              headDigest history = None) →
  tagsLoop histories m !! tag = m !! tag.
Proof.
  revert m. induction histories as [|history rest IH]; intros m Hskip; [done|].
  rewrite tagsLoop_cons, IH by (intros h Hin; apply Hskip; by right).
  destruct (headDigest history) as [d|] eqn:Hhead; [|done].
  destruct (decide (NamedTagEventList.Tag history = tag)) as [Heq|Hne].
  - rewrite (Hskip history) in Hhead; [done | left | done].
  - by rewrite lookup_insert_ne.
Qed.

Lemma tagsLoop_origin histories (m : gmap string string) tag dgst :
  tagsLoop histories m !! tag = Some dgst →
  m !! tag = Some dgst
  ∨ ∃ history, history ∈ histories ∧ NamedTagEventList.Tag history = tag
               ∧ headDigest history = Some dgst.
Proof.
  revert m. induction histories as [|history rest IH]; intros m; [by left|].
  rewrite tagsLoop_cons. intros Hin.
  destruct (IH _ Hin) as [Hm|(h & Hh & Htag & Hhead)].
  - destruct (headDigest history) as [d|] eqn:Hhead; [|by left].
    destruct (decide (NamedTagEventList.Tag history = tag)) as [Heq|Hne].
    + rewrite Heq, lookup_insert_eq in Hm. injection Hm as ->.
      right. exists history. split; [left | done].
    + rewrite lookup_insert_ne in Hm by done. by left.
  - right. exists h. split; [by right | done].
Qed.

Lemma tagsLoop_only pre history post (m : gmap string string) :
  (∀ other, other ∈ pre ++ post →
            NamedTagEventList.Tag other ≠ NamedTagEventList.Tag history) →
  tagsLoop (pre ++ history :: post) m !! NamedTagEventList.Tag history
  = match headDigest history with
    | Some dgst => Some dgst
    | None => m !! NamedTagEventList.Tag history
    end.
Proof.
  intros Honly. rewrite tagsLoop_app, tagsLoop_cons.
  rewrite tagsLoop_skip.
  2:{ intros h Hin Htag. destruct (Honly h); [|done].
      apply elem_of_app. by right. }
  assert (tagsLoop pre m !! NamedTagEventList.Tag history
          = m !! NamedTagEventList.Tag history) as Hpre.
  { apply tagsLoop_skip. intros h Hin Htag. destruct (Honly h); [|done].
    apply elem_of_app. by left. }
  destruct (headDigest history); [apply lookup_insert_eq | done].
Qed.

(** C10. With the stream at hand [Tags] does not fail. Every tag of the
    map it returns is the tag of a history of the status whose first item
    parses to the digest; a tag with one history has the digest parsed
    from the first item of that history, and is left out when the history
    is empty or the image of its first item does not parse; a tag all of
    whose histories are empty or start with an image that does not parse
    is left out. *)
Theorem Tags_first_items ist stream w w1 :
  imageStreamGetter_get ist w = (Returned (Ok stream), w1) →
  let histories := ImageStreamStatus.Tags (ImageStream.Status stream) in
  ∃ m, Tags ist w = (Returned (Ok m), w1)
    ∧ (∀ tag dgst, m !! tag = Some dgst →
         ∃ history item0 rest,
           history ∈ histories
           ∧ NamedTagEventList.Tag history = tag
           ∧ NamedTagEventList.Items history = item0 :: rest
           ∧ digest_Parse (TagEvent.Image item0) = Ok dgst)
    ∧ (∀ pre history post,
         histories = pre ++ history :: post →
         (∀ other, other ∈ pre ++ post →
            NamedTagEventList.Tag other ≠ NamedTagEventList.Tag history) →
         match NamedTagEventList.Items history with
         | [] => m !! NamedTagEventList.Tag history = None
         | item0 :: _ =>
           match digest_Parse (TagEvent.Image item0) with
           | Ok dgst => m !! NamedTagEventList.Tag history = Some dgst
           | Err _ => m !! NamedTagEventList.Tag history = None
           end
         end)
    ∧ (∀ tag,
         (∀ history, history ∈ histories →
            NamedTagEventList.Tag history = tag →
            match NamedTagEventList.Items history with
            | [] => True
            | item0 :: _ => isOk (digest_Parse (TagEvent.Image item0)) = false
            end) →
         m !! tag = None).
Proof.
  intros Hget histories. exists (tagsLoop histories ∅). split; [|split; [|split]].
  - unfold Tags. by rewrite (bind_run _ _ _ _ _ Hget).
  - intros tag dgst Hin.
    apply tagsLoop_origin in Hin as [Hempty|(h & Hh & Htag & Hhead)];
      [by rewrite lookup_empty in Hempty|].
    unfold headDigest in Hhead.
    destruct (NamedTagEventList.Items h) as [|item0 rest] eqn:Hitems; [done|].
    destruct (digest_Parse _) as [d|] eqn:Hparse; [|done].
    injection Hhead as ->. by exists h, item0, rest.
  - intros pre history post Hsplit Honly.
    pose proof (tagsLoop_only pre history post ∅ Honly) as Hlookup.
    rewrite <- Hsplit, lookup_empty in Hlookup. unfold headDigest in Hlookup.
    destruct (NamedTagEventList.Items history) as [|item0 rest]; [done|].
    by destruct (digest_Parse _).
  - intros tag Hskip. rewrite tagsLoop_skip; [apply lookup_empty|].
    intros h Hin Htag. specialize (Hskip h Hin Htag). unfold headDigest.
    destruct (NamedTagEventList.Items h) as [|item0 rest]; [done|].
    by destruct (digest_Parse _).
Qed.
End Policy.

Section Mapping.
Context {CP : Type}.
Context `{kerrors : !KErrors}.
Implicit Types (ist : imageStream CP) (userClient : client.Interface CP)
  (tag : string) (image : Image.t) (w : World CP).

Lemma call_run {A} (op : CP → A * CP) (ev : A → Call) w r cp :
  op (controlPlane w) = (r, cp) →
  call op ev w
  = (Returned r, mkWorld cp (trace w ++ [ev r]) (heap w) (imageCache w)
                   (cachedImageStream w) (cachedImageStreamLayers w)).
Proof. intros Hop. unfold call. by rewrite Hop. Qed.

Lemma namespaceNotFound_other (err : error) (status : Status.t) w :
  (IsNotFound err = true →
   ∃ details, Status.Details status = Some details
              ∧ strings_ToLower (StatusDetails.Kind details) ≠ "namespaces") →
  namespaceNotFound err status w = (Returned false, w).
Proof.
  intros Hnamespace. unfold namespaceNotFound.
  destruct (IsNotFound err); [|done].
  destruct Hnamespace as (details & -> & Hkind); [done|].
  apply String.eqb_neq in Hkind. by rewrite Hkind.
Qed.

Lemma notStreamNotFound_other ist (status : Status.t) w :
  targetStreamNotFound ist (StatusError status) = false →
  notStreamNotFound ist status w = (Returned true, w).
Proof.
  unfold targetStreamNotFound, notStreamNotFound, isValidKind.
  destruct (Status.Details status) as [details|]; [|done].
  destruct (String.eqb (StatusDetails.Kind details) _); [|done].
  destruct (Z.eqb _ _); [|done]. simpl. by intros ->.
Qed.

(** A run that stopped after the first call made no provisioning call. *)
Ltac only_first Hrun :=
  inversion Hrun; subst; simpl;
  let Hin := fresh "Hin" in
  intros Hin ? ?; apply elem_of_app in Hin as [?|Hin];
  [done | apply list_elem_of_singleton in Hin; by subst].

(** The two guards read the error and leave the state as it is. *)
Lemma namespaceNotFound_world (err : error) (status : Status.t) w out w' :
  namespaceNotFound err status w = (out, w') → w' = w.
Proof.
  unfold namespaceNotFound, panic, ret.
  destruct (IsNotFound err); [|congruence].
  destruct (Status.Details status); congruence.
Qed.

Lemma notStreamNotFound_world ist (status : Status.t) w out w' :
  notStreamNotFound ist status w = (out, w') → w' = w.
Proof.
  unfold notStreamNotFound, panic, ret.
  destruct (negb _); [congruence|]. destruct (negb _); [congruence|].
  destruct (Status.Details status); congruence.
Qed.

Ltac stop Hstop :=
  let Hrun := fresh "Hrun" in
  intros Hrun; left; eapply Hstop; [| |exact Hrun]; done.

Ltac first_attempt Hfirst :=
  unfold endsAfterFirstAttempt, CreateImageStreamMapping;
  rewrite (bind_run _ _ _ _ _ (call_run _ _ _ _ _ Hfirst)).

(** C5. When the first creation of the mapping fails with an error that
    tells an exceeded quota, [CreateImageStreamMapping] returns an error
    of code Forbidden; the run made this one call: no call provisioning
    the stream, no second creation of the mapping, and the cached stream
    is as it was. *)
Theorem CreateImageStreamMapping_quota_exceeded ist userClient tag image w err cp :
  client.ImageStreamMappings_Create (registryOSClient ist) (namespace ist)
    (mappingOf ist tag image) (controlPlane w) = (Err err, cp) →
  IsErrorQuotaExceeded err = true →
  ∃ rerr w',
    CreateImageStreamMapping ist userClient tag image w
    = (Returned (Some rerr), w')
    ∧ rerrors.Code rerr = ErrImageStreamForbiddenCode
    ∧ trace w'
      = trace w ++ [CallImageStreamMappingsCreate (namespace ist)
                      (mappingOf ist tag image) (Err err)]
    ∧ (∀ c, c ∈ drop (List.length (trace w)) (trace w') →
            isProvisioning c = false)
    ∧ List.length (List.filter isMappingCreation
                     (drop (List.length (trace w)) (trace w'))) = 1%nat
    ∧ cachedImageStream w' = cachedImageStream w.
Proof.
  intros Hfirst Hquota. unfold CreateImageStreamMapping.
  rewrite (bind_run _ _ _ _ _ (call_run _ _ _ _ _ Hfirst)). rewrite Hquota.
  eexists _, _. split; [reflexivity|]. simpl.
  rewrite drop_app_length. repeat split.
  intros c ->%list_elem_of_singleton. done.
Qed.

(** C6, as amended. On the answer [r] to the first creation of the
    mapping the run ends after this one call in each of these cases: with
    no error when [r] is a success; with Forbidden when its error tells an
    exceeded quota; otherwise with Unknown when the error is no status
    error; with Forbidden when it is a not-found status error whose
    details name the kind [namespaces] (in any case of letters); with
    Unknown when it is a status error that is neither that nor the
    stream of the mapping reported as not found, a not-found error being
    taken to carry details. A call provisioning the stream is made only
    when the stream of the mapping was reported as not found. *)
Theorem CreateImageStreamMapping_first_attempt ist userClient tag image w r cp :
  client.ImageStreamMappings_Create (registryOSClient ist) (namespace ist)
    (mappingOf ist tag image) (controlPlane w) = (r, cp) →
  let ends := endsAfterFirstAttempt ist userClient tag image w r in
  (isOk r = true → ends None)
  ∧ (∀ err, r = Err err → IsErrorQuotaExceeded err = true →
       ends (Some ErrImageStreamForbiddenCode))
  ∧ (∀ err, r = Err err → IsErrorQuotaExceeded err = false →
       asStatusError err = None →
       ends (Some ErrImageStreamUnknownErrorCode))
  ∧ (∀ status details, r = Err (StatusError status) →
       IsErrorQuotaExceeded (StatusError status) = false →
       IsNotFound (StatusError status) = true →
       Status.Details status = Some details →
       strings_ToLower (StatusDetails.Kind details) = "namespaces" →
       ends (Some ErrImageStreamForbiddenCode))
  ∧ (∀ status, r = Err (StatusError status) →
       IsErrorQuotaExceeded (StatusError status) = false →
       (IsNotFound (StatusError status) = true →
        ∃ details, Status.Details status = Some details
                   ∧ strings_ToLower (StatusDetails.Kind details)
                     ≠ "namespaces") →
       targetStreamNotFound ist (StatusError status) = false →
       ends (Some ErrImageStreamUnknownErrorCode))
  ∧ (∀ out w' c,
       CreateImageStreamMapping ist userClient tag image w = (out, w') →
       c ∈ trace w' → c ∉ trace w → isProvisioning c = true →
       ∃ err, r = Err err ∧ IsErrorQuotaExceeded err = false
              ∧ targetStreamNotFound ist err = true).
Proof.
  intros Hfirst ends. unfold ends. repeat split.
  - destruct r as [status|err]; [|done]. intros _. first_attempt Hfirst.
    eexists _, _. by repeat split.
  - intros err -> Hquota. first_attempt Hfirst. rewrite Hquota.
    eexists _, _. by repeat split.
  - intros err -> Hquota Hstatus. first_attempt Hfirst.
    rewrite Hquota, Hstatus. eexists _, _. by repeat split.
  - intros status details -> Hquota Hnotfound Hdetails Hkind.
    first_attempt Hfirst. rewrite Hquota. simpl.
    unfold namespaceNotFound. rewrite Hnotfound, Hdetails, Hkind. simpl.
    eexists _, _. by repeat split.
  - intros status -> Hquota Hnamespace Htarget. first_attempt Hfirst.
    rewrite Hquota. simpl.
    rewrite (bind_run _ _ _ _ _ (namespaceNotFound_other _ _ _ Hnamespace)).
    rewrite (bind_run _ _ _ _ _ (notStreamNotFound_other _ _ _ Htarget)).
    eexists _, _. by repeat split.
  - intros out w' c. unfold CreateImageStreamMapping.
    rewrite (bind_run _ _ _ _ _ (call_run _ _ _ _ _ Hfirst)).
    destruct r as [status|err]; [intros Hrun; only_first Hrun|].
    destruct (IsErrorQuotaExceeded err) eqn:Hquota;
      [intros Hrun; only_first Hrun|].
    destruct err as [status|code msg cause|msg]; simpl;
      [|intros Hrun; only_first Hrun..].
    unfold namespaceNotFound, notStreamNotFound, isValidKind.
    intros Hrun Hin Hnew Hprov. exists (StatusError status).
    split; [done|]. split; [done|]. simpl.
    destruct (Status.Details status) as [details|]; simpl in *.
    + destruct (String.eqb (StatusDetails.Kind details) "imagestreammappings");
        destruct (Z.eqb _ _);
        destruct (String.eqb (StatusDetails.Name details) _);
        simpl in *; try done;
        destruct (IsNotFound _);
        try destruct (String.eqb (strings_ToLower _) _);
        unfold bind, ret in Hrun; simpl in Hrun; revert Hin Hnew Hprov;
        only_first Hrun.
    + destruct (IsNotFound _); unfold bind, ret, panic in Hrun; simpl in Hrun;
        revert Hin Hnew Hprov; only_first Hrun.
Qed.

Lemma provisioningError_None ist (r : result ImageStream.t error) :
  provisioningError ist r = None
  ↔ (isOk r = true
     ∨ ∃ err, r = Err err
              ∧ (IsAlreadyExists err = true ∨ IsConflict err = true)).
Proof.
  unfold provisioningError. destruct r as [stream|err]; simpl.
  { split; [by left | done]. }
  destruct (IsAlreadyExists err) eqn:Hexists; simpl.
  { split; [right; eauto | done]. }
  destruct (IsConflict err) eqn:Hconflict; simpl.
  { split; [right; eauto | done]. }
  split.
  - by destruct (_ || _ || _)%bool.
  - intros [?|(err' & [= <-] & [?|?])]; congruence.
Qed.

(** The three shapes of a run: it stops after the first attempt, or after
    a provisioning that was refused, or it provisions, seeds the cache and
    tries once more. *)
Lemma CreateImageStreamMapping_shape ist userClient tag image w out w' :
  CreateImageStreamMapping ist userClient tag image w = (out, w') →
  let attempt := CallImageStreamMappingsCreate (namespace ist)
                   (mappingOf ist tag image) in
  let provision := CallImageStreamsCreate (namespace ist)
                     (provisionedStream ist) in
  (∃ r1, trace w' = trace w ++ [attempt r1]
         ∧ cachedImageStream w' = cachedImageStream w)
  ∨ (∃ r1 r2 rerr,
       trace w' = trace w ++ [attempt r1; provision r2]
       ∧ provisioningError ist r2 = Some rerr
       ∧ out = Returned (Some rerr)
       ∧ cachedImageStream w' = cachedImageStream w)
  ∨ (∃ r1 r2 r3,
       trace w' = trace w ++ [attempt r1; provision r2; attempt r3]
       ∧ provisioningError ist r2 = None
       ∧ cachedImageStream w' = Some (provisionedStream ist)
       ∧ match r3 with
         | Ok _ => out = Returned None
         | Err err =>
           ∃ rerr, out = Returned (Some rerr)
                   ∧ rerrors.Code rerr
                     = if IsErrorQuotaExceeded err
                       then ErrImageStreamForbiddenCode
                       else ErrImageStreamUnknownErrorCode
         end).
Proof.
  intros Hrun attempt provision. revert Hrun.
  unfold CreateImageStreamMapping, bind, call.
  fold (mappingOf ist tag image). fold (provisionedStream ist).
  destruct (client.ImageStreamMappings_Create _ _ _ _) as [r1 cp1].
  assert (∀ o (x : World CP),
            trace x = trace w ++ [attempt r1] →
            cachedImageStream x = cachedImageStream w →
            (o, x) = (out, w') →
            ∃ r1, trace w' = trace w ++ [attempt r1]
                  ∧ cachedImageStream w' = cachedImageStream w) as Hstop.
  { intros o x Htrace Hcache [= _ <-]. eauto. }
  destruct r1 as [status|err]; [stop Hstop|].
  destruct (IsErrorQuotaExceeded err); [stop Hstop|].
  destruct (asStatusError err) as [status|]; [|stop Hstop].
  destruct (namespaceNotFound _ _ _) as [[[|]|] x] eqn:Hnamespace;
    apply namespaceNotFound_world in Hnamespace as ->;
    [stop Hstop | | stop Hstop].
  destruct (notStreamNotFound _ _ _) as [[[|]|] y] eqn:Htarget;
    apply notStreamNotFound_world in Htarget as ->;
    [stop Hstop | | stop Hstop].
  simpl. destruct (client.ImageStreams_Create _ _ _ _) as [r2 cp2].
  destruct (provisioningError ist r2) as [rerr|] eqn:Hprovision.
  { intros [= <- <-]. right. left. exists (Err err), r2, rerr. simpl.
    by rewrite <- app_assoc. }
  unfold cacheImageStream. simpl.
  destruct (client.ImageStreamMappings_Create _ _ _ _) as [r3 cp3].
  intros Hrun. right. right. exists (Err err), r2, r3.
  destruct r3 as [status3|err3].
  - injection Hrun as <- <-. simpl. by rewrite <- !app_assoc.
  - destruct (IsErrorQuotaExceeded err3); injection Hrun as <- <-; simpl;
      rewrite <- !app_assoc; repeat split; eauto.
Qed.

(** C7. Every run of [CreateImageStreamMapping] makes at most one call
    provisioning the stream and at most two creating the mapping. When the
    provisioning call succeeded, or failed with AlreadyExists or Conflict,
    the stream it sent, empty but for its name, is the cached stream
    afterwards, and the run is: first attempt, provisioning, one more
    attempt, whose answer decides the result: no error on success,
    Forbidden on an exceeded quota, Unknown on any other error. *)
Theorem CreateImageStreamMapping_one_retry ist userClient tag image w out w' :
  CreateImageStreamMapping ist userClient tag image w = (out, w') →
  ∃ calls,
    trace w' = trace w ++ calls
    ∧ (List.length (List.filter isProvisioning calls) ≤ 1)%nat
    ∧ (List.length (List.filter isMappingCreation calls) ≤ 2)%nat
    ∧ ∀ ns stream r,
        CallImageStreamsCreate ns stream r ∈ calls →
        (isOk r = true
         ∨ ∃ err, r = Err err
                  ∧ (IsAlreadyExists err = true ∨ IsConflict err = true)) →
        stream = provisionedStream ist
        ∧ cachedImageStream w' = Some stream
        ∧ ∃ first retry,
            calls
            = [CallImageStreamMappingsCreate (namespace ist)
                 (mappingOf ist tag image) first;
               CallImageStreamsCreate ns stream r;
               CallImageStreamMappingsCreate (namespace ist)
                 (mappingOf ist tag image) retry]
            ∧ match retry with
              | Ok _ => out = Returned None
              | Err err =>
                ∃ rerr, out = Returned (Some rerr)
                        ∧ rerrors.Code rerr
                          = if IsErrorQuotaExceeded err
                            then ErrImageStreamForbiddenCode
                            else ErrImageStreamUnknownErrorCode
              end.
Proof.
  intros Hrun.
  destruct (CreateImageStreamMapping_shape _ _ _ _ _ _ _ Hrun)
    as [(r1 & Htrace & _)
       |[(r1 & r2 & rerr & Htrace & Hrefused & _)
        |(r1 & r2 & r3 & Htrace & Hprovisioned & Hcache & Hout)]];
    eexists; (split; [exact Htrace|]); simpl;
    (split; [lia|]); (split; [lia|]); intros ns stream r Hin Hok.
  - apply list_elem_of_singleton in Hin. done.
  - apply elem_of_cons in Hin as [?|Hin]; [done|].
    apply list_elem_of_singleton in Hin. injection Hin as -> -> ->.
    apply (provisioningError_None ist) in Hok. congruence.
  - apply elem_of_cons in Hin as [?|Hin]; [done|].
    apply elem_of_cons in Hin as [Hin|Hin];
      [|by apply list_elem_of_singleton in Hin].
    injection Hin as -> -> ->. split; [done|]. split; [done|]. eauto.
Qed.
End Mapping.

(** ** The rest of the layer *)

Section Origin.
Context {CP : Type}.
Context `{kerrors : !KErrors, libraries : !Libraries, originUtil : !OriginUtil,
          getterCodes : !GetterCodes, runtime : !GoRuntime}.
Implicit Types (ist : imageStream CP) (dgst : string) (w : World CP).

Lemma findParent_sound images dgst parent :
  findParent images dgst = parent → parent ≠ "" →
  ∃ ibr, (parent, ibr) ∈ images
         ∧ dgst ∈ ImageBlobReferences.Manifests ibr.
Proof.
  induction images as [|[image ibr] rest IH]; simpl; [congruence|].
  destruct (manifestsContain _ _) eqn:Hfound.
  - intros <- _. exists ibr. split; [left|].
    by apply manifestsContain_elem_of.
  - intros Hparent Hne. destruct (IH Hparent Hne) as (ibr' & Hin & Hmember).
    exists ibr'. split; [by right | done].
Qed.

Lemma resolveUpstreamRef_inv ist dgst ref w w' :
  resolveUpstreamRef ist dgst w = (Returned (Ok ref), w') →
  ∃ layers w1 parent ibr parentEvent parentRef,
    imageStreamGetter_layers ist w = (Returned (Ok layers), w1)
    ∧ ImageStreamLayers.Images layers !! parent = Some ibr
    ∧ dgst ∈ ImageBlobReferences.Manifests ibr
    ∧ parent ≠ ""
    ∧ ResolveImageID ist parent w1 = (Returned (Ok parentEvent), w')
    ∧ reference_Parse (TagEvent.DockerImageReference parentEvent) = Ok parentRef
    ∧ ref = DockerImageReference.set_ID dgst
              (DockerImageReference.set_Tag "" parentRef).
Proof.
  unfold resolveUpstreamRef. intros Hrun.
  apply bind_inv in Hrun as [([layers|rErr] & w1 & Hlayers & Hrest)|[_ [=]]];
    [|done].
  cbv zeta in Hrest.
  destruct (String.eqb_spec
              (findParent (range_Images (ImageStreamLayers.Images layers)) dgst)
              "") as [|Hne]; [done|].
  apply bind_inv in Hrest as [([parentEvent|rErr] & w2 & Hresolve & Hrest)|[_ [=]]];
    [|done].
  destruct (reference_Parse _) as [parentRef|] eqn:Hparse; [|done].
  injection Hrest as <- <-.
  destruct (findParent_sound _ _ _ eq_refl Hne) as (ibr & Hin & Hmember).
  apply range_Images_elem_of in Hin.
  by exists layers, w1,
    (findParent (range_Images (ImageStreamLayers.Images layers)) dgst),
    ibr, parentEvent, parentRef.
Qed.

Lemma copy_lookup ref (image : nat) p w2 w' :
  (img <- deref image;;
   p <- alloc (Image.set_DockerImageReference ref img);;
   ret (Ok (E:=rerrors.Error) p)) w2 = (Returned (Ok p), w') →
  ∃ returned, heap w' !! p = Some returned
              ∧ Image.DockerImageReference returned = ref.
Proof.
  intros Hrun. unfold bind, deref in Hrun.
  destruct (heap w2 !! image) as [stored|]; [|done].
  simpl in Hrun. inversion Hrun; subst. simpl.
  eexists. split; [by apply list_lookup_middle | done].
Qed.

(** X1. An image [GetImageOfImageStream] returns has one of two
    references: that of the tag event the digest resolves to, or that of a
    parent, an entry of the layers view with a key that is not empty which
    holds the digest and resolves to an event whose reference parses,
    with registry, namespace and name of this reference, no tag and the
    digest as ID. *)
Theorem GetImageOfImageStream_origin ist dgst p w w' :
  GetImageOfImageStream ist dgst w = (Returned (Ok p), w') →
  ∃ returned,
    heap w' !! p = Some returned
    ∧ ((∃ tagEvent w1,
          ResolveImageID ist dgst w = (Returned (Ok tagEvent), w1)
          ∧ Image.DockerImageReference returned
            = TagEvent.DockerImageReference tagEvent)
       ∨ (∃ direct w1 layers w2 parent ibr parentEvent parentRef w3,
            getImageOfImageStream ist dgst w = (Returned (Err direct), w1)
            ∧ imageStreamGetter_layers ist w1 = (Returned (Ok layers), w2)
            ∧ ImageStreamLayers.Images layers !! parent = Some ibr
            ∧ dgst ∈ ImageBlobReferences.Manifests ibr
            ∧ parent ≠ ""
            ∧ ResolveImageID ist parent w2 = (Returned (Ok parentEvent), w3)
            ∧ reference_Parse (TagEvent.DockerImageReference parentEvent)
              = Ok parentRef
            ∧ Image.DockerImageReference returned
              = reference_String
                  (DockerImageReference.Build
                     (DockerImageReference.Registry parentRef)
                     (DockerImageReference.Namespace parentRef)
                     (DockerImageReference.Name parentRef) "" dgst))).
Proof.
  unfold GetImageOfImageStream. intros Hrun.
  apply bind_inv in Hrun as [([isImage|direct] & w1 & Hdirect & Hrest)|[_ [=]]].
  - injection Hrest as <- <-.
    unfold getImageOfImageStream in Hdirect.
    apply bind_inv in Hdirect
      as [([[image tagEvent]|err] & w2 & Hstored & Hcopy)|[_ [=]]]; [|done].
    apply copy_lookup in Hcopy as (returned & Hheap & Href).
    exists returned. split; [done|]. left.
    unfold getStoredImageOfImageStream in Hstored.
    apply bind_inv in Hstored as [([e|err] & w0 & Hresolve & Hrest)|[_ [=]]];
      [|done].
    apply bind_inv in Hrest as [([held|err] & w0' & Hget & Hret)|[_ [=]]];
      [|done].
    injection Hret as <- <- <-. by exists e, w0.
  - apply bind_inv in Hrest as [([ref|err] & w2 & Hparent & Hrest)|[_ [=]]];
      [|done].
    apply bind_inv in Hrest as [([image|err] & w3 & Hget & Hcopy)|[_ [=]]];
      [|done].
    apply copy_lookup in Hcopy as (returned & Hheap & Href).
    exists returned. split; [done|]. right.
    apply resolveUpstreamRef_inv in Hparent
      as (layers & w1' & parent & ibr & parentEvent & parentRef & Hlayers
          & Hentry & Hmember & Hne & Hresolve & Hparse & ->).
    exists direct, w1, layers, w1', parent, ibr, parentEvent, parentRef, w2.
    by repeat split.
Qed.

(** The codes of the errors. *)
Lemma getImage_codes ist dgst err w w' :
  getImage ist dgst w = (Returned (Err err), w') →
  rerrors.Code err = ErrImageStreamImageNotFoundCode
  ∨ rerrors.Code err = ErrImageStreamUnknownErrorCode.
Proof.
  unfold getImage. intros Hrun.
  apply bind_inv in Hrun as [([image|e] & w1 & _ & Hrest)|[_ [=]]]; [done|].
  destruct (IsNotFound e); injection Hrest as <- <-; auto.
Qed.

Lemma resolveUpstreamRef_codes ist dgst err w w' :
  resolveUpstreamRef ist dgst w = (Returned (Err err), w') →
  rerrors.Code err = ErrImageStreamImageNotFoundCode
  ∨ rerrors.Code err = ErrImageStreamUnknownErrorCode.
Proof.
  unfold resolveUpstreamRef. intros Hrun.
  apply bind_inv in Hrun as [([layers|rErr] & w1 & _ & Hrest)|[_ [=]]];
    [|injection Hrest as <- <-; auto].
  cbv zeta in Hrest.
  destruct (String.eqb _ _); [injection Hrest as <- <-; auto|].
  apply bind_inv in Hrest as [([parentEvent|rErr] & w2 & _ & Hrest)|[_ [=]]];
    [|injection Hrest as <- <-; auto].
  destruct (reference_Parse _); [done | injection Hrest as <- <-; auto].
Qed.

(** X2. Every error of [GetImageOfImageStream] has the code ImageNotFound
    or Unknown: that the stream itself is missing or forbidden does not
    show in the code. *)
Theorem GetImageOfImageStream_error_codes ist dgst err w w' :
  GetImageOfImageStream ist dgst w = (Returned (Err err), w') →
  rerrors.Code err = ErrImageStreamImageNotFoundCode
  ∨ rerrors.Code err = ErrImageStreamUnknownErrorCode.
Proof.
  unfold GetImageOfImageStream. intros Hrun.
  apply bind_inv in Hrun as [([isImage|direct] & w1 & _ & Hrest)|[_ [=]]];
    [done|].
  apply bind_inv in Hrest as [([ref|e] & w2 & Hparent & Hrest)|[_ [=]]].
  - apply bind_inv in Hrest as [([image|e] & w3 & Hget & Hrest)|[_ [=]]].
    + apply bind_inv in Hrest as [(img & ? & _ & Hrest)|[_ [=]]].
      apply bind_inv in Hrest as [(q & ? & _ & Hrest)|[_ [=]]]. done.
    + injection Hrest as <- <-. by eapply getImage_codes.
  - injection Hrest as <- <-. by eapply resolveUpstreamRef_codes.
Qed.

End Origin.

Section Calls.
Context {CP : Type}.
Context `{kerrors : !KErrors, libraries : !Libraries, originUtil : !OriginUtil,
          getterCodes : !GetterCodes, runtime : !GoRuntime}.
Implicit Types (ist : imageStream CP) (dgst : string) (w : World CP)
  (P : Call → Prop).

Lemma emits_ret {A} P (a : A) : emits (CP:=CP) P (ret a).
Proof. intros w out w' [= _ <-]. exists []. by rewrite app_nil_r. Qed.

Lemma emits_bind {A B} P (m : M A) (k : A → M B) :
  emits (CP:=CP) P m → (∀ a, emits P (k a)) → emits P (bind m k).
Proof.
  intros Hm Hk w out w' Hrun.
  apply bind_inv in Hrun as [(a & w1 & Hrun1 & Hrun2)|[Hrun1 _]].
  - destruct (Hm _ _ _ Hrun1) as (calls1 & Htrace1 & Hcalls1).
    destruct (Hk _ _ _ _ Hrun2) as (calls2 & Htrace2 & Hcalls2).
    exists (calls1 ++ calls2). split; [|by apply Forall_app].
    by rewrite Htrace2, Htrace1, app_assoc.
  - by eapply Hm.
Qed.

Lemma emits_call {A} P (op : CP → A * CP) (ev : A → Call) :
  (∀ r, P (ev r)) → emits P (call op ev).
Proof.
  intros Hev w out w'. unfold call. destruct (op _) as [r cp]. intros [= _ <-].
  exists [ev r]. split; [done|]. by apply Forall_singleton.
Qed.

Lemma emits_imageStreamGetter_get ist :
  emits (λ c, isImagesGet c = false) (imageStreamGetter_get ist).
Proof.
  intros w out w'. unfold imageStreamGetter_get.
  destruct (cachedImageStream w).
  { intros [= _ <-]. exists []. by rewrite app_nil_r. }
  revert w out w'. apply emits_bind; [by apply emits_call|].
  intros [stream|err]; [|apply emits_ret].
  apply emits_bind; [|intros; apply emits_ret].
  intros w out w' [= _ <-]. exists []. by rewrite app_nil_r.
Qed.

Lemma emits_imageStreamGetter_layers ist :
  emits (λ c, isImagesGet c = false) (imageStreamGetter_layers ist).
Proof.
  intros w out w'. unfold imageStreamGetter_layers.
  destruct (cachedImageStreamLayers w).
  { intros [= _ <-]. exists []. by rewrite app_nil_r. }
  revert w out w'. apply emits_bind; [by apply emits_call|].
  intros [layers|err]; [|apply emits_ret].
  intros w out w' [= _ <-]. exists []. by rewrite app_nil_r.
Qed.

Lemma emits_ResolveImageID ist dgst :
  emits (λ c, isImagesGet c = false) (ResolveImageID ist dgst).
Proof.
  apply emits_bind; [apply emits_imageStreamGetter_get|].
  intros [stream|err]; [|apply emits_ret].
  destruct (util_ResolveImageID stream dgst); apply emits_ret.
Qed.

Lemma emits_resolveUpstreamRef ist dgst :
  emits (λ c, isImagesGet c = false) (resolveUpstreamRef ist dgst).
Proof.
  apply emits_bind; [apply emits_imageStreamGetter_layers|].
  intros [layers|err]; [|apply emits_ret].
  simpl. destruct (String.eqb _ _); [apply emits_ret|].
  apply emits_bind; [apply emits_ResolveImageID|].
  intros [parentTagEvent|err]; [|apply emits_ret].
  destruct (reference_Parse _); apply emits_ret.
Qed.

(** Neither the search of the history nor the walk over the layers touches
    the images. *)
Lemma ResolveImageID_images ist dgst out w w' :
  ResolveImageID ist dgst w = (out, w') →
  heap w' = heap w ∧ imageCache w' = imageCache w.
Proof.
  unfold ResolveImageID, imageStreamGetter_get, bind, call, cacheImageStream, ret.
  destruct (cachedImageStream w) as [stream|].
  - destruct (util_ResolveImageID stream dgst); by intros [= _ <-].
  - destruct (client.ImageStreams_Get _ _ _ _) as [[stream|err] cp]; simpl.
    + destruct (util_ResolveImageID stream dgst); by intros [= _ <-].
    + by intros [= _ <-].
Qed.

Lemma imageStreamGetter_layers_images ist out w w' :
  imageStreamGetter_layers ist w = (out, w') →
  heap w' = heap w ∧ imageCache w' = imageCache w.
Proof.
  unfold imageStreamGetter_layers, bind, call, ret.
  destruct (cachedImageStreamLayers w); [by intros [= _ <-]|].
  destruct (client.ImageStreams_Layers _ _ _ _) as [[layers|err] cp];
    by intros [= _ <-].
Qed.

Lemma resolveUpstreamRef_images ist dgst out w w' :
  resolveUpstreamRef ist dgst w = (out, w') →
  heap w' = heap w ∧ imageCache w' = imageCache w.
Proof.
  unfold resolveUpstreamRef. intros Hrun.
  apply bind_inv in Hrun as [([layers|rErr] & w1 & Hlayers & Hrest)|[Hlayers _]].
  - apply imageStreamGetter_layers_images in Hlayers as [<- <-].
    cbv zeta in Hrest. destruct (String.eqb _ _); [by injection Hrest as _ <-|].
    apply bind_inv in Hrest as [(r & w2 & Hresolve & Hrest)|[Hresolve _]];
      apply ResolveImageID_images in Hresolve as [<- <-]; [|done].
    destruct r as [parentEvent|]; [|by injection Hrest as _ <-].
    destruct (reference_Parse _); by injection Hrest as _ <-.
  - apply imageStreamGetter_layers_images in Hlayers as [<- <-].
    by injection Hrest as _ <-.
  - by apply imageStreamGetter_layers_images in Hlayers.
Qed.

(** X3. An image that is not of the stream is not fetched: when the digest
    does not resolve in the history and no parent is resolved for it,
    [GetImageOfImageStream] fails without a single call for an image, and
    leaves the images in memory and the cache of the image getter as they
    were. *)
Theorem GetImageOfImageStream_fetches_members_only ist dgst err parentErr
    w w1 w2 :
  ResolveImageID ist dgst w = (Returned (Err err), w1) →
  resolveUpstreamRef ist dgst w1 = (Returned (Err parentErr), w2) →
  GetImageOfImageStream ist dgst w = (Returned (Err parentErr), w2)
  ∧ (∃ calls, trace w2 = trace w ++ calls
              ∧ Forall (λ c, isImagesGet c = false) calls)
  ∧ heap w2 = heap w
  ∧ imageCache w2 = imageCache w.
Proof.
  intros Hdirect Hparent. split; [|split].
  - unfold GetImageOfImageStream.
    rewrite (bind_run _ _ _ _ _
               (getImageOfImageStream_unresolved _ _ _ _ _ Hdirect)).
    by rewrite (bind_run _ _ _ _ _ Hparent).
  - destruct (emits_ResolveImageID _ _ _ _ _ Hdirect) as (calls1 & Htrace1 & ?).
    destruct (emits_resolveUpstreamRef _ _ _ _ _ Hparent)
      as (calls2 & Htrace2 & ?).
    exists (calls1 ++ calls2). split; [|by apply Forall_app].
    by rewrite Htrace2, Htrace1, app_assoc.
  - apply ResolveImageID_images in Hdirect as [Hheap1 Hcache1].
    apply resolveUpstreamRef_images in Hparent as [Hheap2 Hcache2].
    split; congruence.
Qed.

(** X4. The image [getStoredImageOfImageStream] returns is the object the
    image getter holds for the digest, not a copy, and its content is the
    image as stored: the one at this address before the call, or the one a
    call for the digest delivered during it. The reference of the tag event
    is not written into it. *)
Theorem getStoredImageOfImageStream_stored ist dgst image tagEvent w w' :
  cacheInHeap w →
  getStoredImageOfImageStream ist dgst w = (Returned (Ok (image, tagEvent)), w') →
  imageCache w' !! dgst = Some image
  ∧ ∃ stored,
      heap w' !! image = Some stored
      ∧ ((imageCache w !! dgst = Some image ∧ heap w !! image = Some stored
          ∧ heap w' = heap w)
         ∨ (imageCache w !! dgst = None
            ∧ CallImagesGet dgst (Ok stored) ∈ trace w'
            ∧ heap w' = heap w ++ [stored])).
Proof.
  intros Hwf. unfold getStoredImageOfImageStream. intros Hrun.
  apply bind_inv in Hrun as [([e|err] & w1 & Hresolve & Hrest)|[_ [=]]]; [|done].
  apply bind_inv in Hrest as [([held|err] & w2 & Hget & Hret)|[_ [=]]]; [|done].
  injection Hret as <- <- <-.
  apply ResolveImageID_images in Hresolve as [Hheap Hcache].
  unfold getImage in Hget.
  apply bind_inv in Hget as [([held'|err] & w3 & Hget & Hret)|[_ [=]]];
    [|by destruct (IsNotFound err)].
  injection Hret as <- <-. unfold imageClient_Get in Hget.
  rewrite Hcache in Hget.
  destruct (imageCache w !! dgst) as [cached|] eqn:Hcached.
  - injection Hget as <- <-. split; [congruence|].
    pose proof (Hwf _ _ Hcached) as Hlt.
    apply lookup_lt_is_Some in Hlt as [stored Hstored].
    exists stored. split; [congruence|]. left. by rewrite Hheap.
  - unfold bind, call in Hget.
    destruct (client.Images_Get _ _ _) as [[img|err] cp]; [|done].
    simpl in Hget. injection Hget as <- <-. simpl.
    split; [apply lookup_insert_eq|].
    exists img. rewrite Hheap. split; [by apply list_lookup_middle|].
    right. split; [done|]. split; [|done].
    apply elem_of_app. right. apply list_elem_of_here.
Qed.
End Calls.

Section Fetches.
Context {CP : Type}.
Context `{kerrors : !KErrors, libraries : !Libraries, originUtil : !OriginUtil,
          getterCodes : !GetterCodes, runtime : !GoRuntime}.
Implicit Types (ist : imageStream CP) (dgst : string) (w : World CP)
  (P : Call → Prop).

Lemma emits_weaken {A} P (Q : Call → Prop) (m : M A) :
  (∀ c, P c → Q c) → emits (CP:=CP) P m → emits Q m.
Proof.
  intros HPQ Hm w out w' Hrun. destruct (Hm _ _ _ Hrun) as (calls & ? & Hcalls).
  exists calls. split; [done|]. by eapply Forall_impl.
Qed.

Lemma fetchOf_other dgst c : isImagesGet c = false → fetchOf dgst c.
Proof. by destruct c. Qed.

Lemma emits_copy dgst ref (image : nat) :
  emits (CP:=CP) (fetchOf dgst)
    (img <- deref image;;
     p <- alloc (Image.set_DockerImageReference ref img);;
     ret (Ok (E:=rerrors.Error) p)).
Proof.
  intros w out w'. unfold bind, deref, alloc, ret.
  destruct (heap w !! image); intros [= _ <-]; exists [];
    by rewrite app_nil_r.
Qed.

Lemma emits_getImage ist dgst : emits (fetchOf dgst) (getImage ist dgst).
Proof.
  apply emits_bind.
  - intros w out w'. unfold imageClient_Get.
    destruct (imageCache w !! dgst).
    { intros [= _ <-]. exists []. by rewrite app_nil_r. }
    unfold bind, call, alloc.
    destruct (client.Images_Get _ _ _) as [[img|err] cp]; intros [= _ <-];
      simpl; eexists [_]; (split; [done|]); by apply Forall_singleton.
  - intros [image|err]; [apply emits_ret|].
    destruct (IsNotFound err); apply emits_ret.
Qed.

(** X16. The calls for an image that [GetImageOfImageStream] makes are all
    for the digest asked for: the image of a parent is never fetched, a
    parent is only looked up in the history of the stream. *)
Theorem GetImageOfImageStream_fetches_the_digest ist dgst out w w' :
  GetImageOfImageStream ist dgst w = (out, w') →
  ∃ calls, trace w' = trace w ++ calls
           ∧ ∀ name r, CallImagesGet name r ∈ calls → name = dgst.
Proof.
  intros Hrun.
  assert (emits (fetchOf dgst) (GetImageOfImageStream ist dgst)) as Hemits.
  { apply emits_bind.
    - apply emits_bind.
      + apply emits_bind.
        * eapply emits_weaken; [apply fetchOf_other | apply emits_ResolveImageID].
        * intros [tagEvent|err]; [|apply emits_ret].
          apply emits_bind; [apply emits_getImage|].
          intros [image|err]; apply emits_ret.
      + intros [[image tagEvent]|err]; [apply emits_copy | apply emits_ret].
    - intros [isImage|direct]; [apply emits_ret|].
      apply emits_bind.
      + eapply emits_weaken;
          [apply fetchOf_other | apply emits_resolveUpstreamRef].
      + intros [ref|err]; [|apply emits_ret].
        apply emits_bind; [apply emits_getImage|].
        intros [image|err]; [apply emits_copy | apply emits_ret]. }
  destruct (Hemits _ _ _ Hrun) as (calls & Htrace & Hcalls).
  exists calls. split; [done|]. intros name r Hin.
  by apply (proj1 (Forall_forall _ _) Hcalls) in Hin.
Qed.
End Fetches.

Section Provisioning.
Context {CP : Type}.
Context `{kerrors : !KErrors, libraries : !Libraries, originUtil : !OriginUtil,
          getterCodes : !GetterCodes, runtime : !GoRuntime}.
Implicit Types (ist : imageStream CP) (userClient : client.Interface CP)
  (tag : string) (image : Image.t) (w : World CP).

(** A cached stream is what the getter answers with, at no cost. *)
Lemma imageStreamGetter_get_cached ist stream w :
  cachedImageStream w = Some stream →
  imageStreamGetter_get ist w = (Returned (Ok stream), w).
Proof. intros Hcached. unfold imageStreamGetter_get. by rewrite Hcached. Qed.

Lemma imageStreamGetter_get_caches ist stream w w1 :
  imageStreamGetter_get ist w = (Returned (Ok stream), w1) →
  cachedImageStream w1 = Some stream.
Proof.
  unfold imageStreamGetter_get.
  destruct (cachedImageStream w) as [cached|] eqn:Hcached.
  { by intros [= <- <-]. }
  unfold bind, call, cacheImageStream, ret.
  destruct (client.ImageStreams_Get _ _ _ _) as [[fetched|err] cp]; [|done].
  by intros [= <- <-].
Qed.

(** X6. [Exists] does not report a missing stream as an error: its errors
    have the code Forbidden or Unknown, never NotFound. It answers true
    exactly when the stream is obtained and false exactly when the getter
    fails with its not-found code. *)
Theorem Exists_outcomes ist out w w' :
  Exists ist w = (out, w') →
  (∀ err, out = Returned (Err err) →
     rerrors.Code err ≠ ErrImageStreamNotFoundCode
     ∧ (rerrors.Code err = ErrImageStreamForbiddenCode
        ∨ rerrors.Code err = ErrImageStreamUnknownErrorCode))
  ∧ (out = Returned (Ok true)
     ↔ ∃ stream, imageStreamGetter_get ist w = (Returned (Ok stream), w'))
  ∧ (out = Returned (Ok false)
     ↔ ∃ rErr, imageStreamGetter_get ist w = (Returned (Err rErr), w')
               ∧ rerrors.Code rErr = ErrImageStreamGetterNotFoundCode).
Proof.
  unfold Exists. intros Hrun.
  apply bind_inv in Hrun as [([stream|rErr] & w1 & Hget & Hrest)|[Hget ->]].
  - injection Hrest as <- <-. split; [done|]. split.
    + split; [eauto | done].
    + split; [done|]. intros (rErr & Hget' & _). congruence.
  - destruct (String.eqb_spec (rerrors.Code rErr)
                ErrImageStreamGetterNotFoundCode) as [Hcode|Hcode];
      injection Hrest as <- <-.
    + split; [done|]. split.
      * split; [done|]. intros (stream & Hget'). congruence.
      * split; [eauto | done].
    + split.
      * intros err [= <-]. unfold convertImageStreamGetterError. simpl.
        apply String.eqb_neq in Hcode. rewrite ?Hcode.
        destruct (String.eqb (rerrors.Code rErr)
                    ErrImageStreamGetterForbiddenCode);
          (split; [discriminate | auto]).
      * split.
        -- split; [done|]. intros (stream & Hget'). congruence.
        -- split; [done|]. intros (rErr' & Hget' & Hcode'). congruence.
  - unfold imageStreamGetter_get in Hget.
    destruct (cachedImageStream w); [done|].
    unfold bind, call, cacheImageStream, ret in Hget.
    by destruct (client.ImageStreams_Get _ _ _ _) as [[?|?] ?].
Qed.

(** X7. Once [CreateImageStreamMapping] has made a provisioning call that
    was accepted (answered with success, AlreadyExists or Conflict), the
    rest of the request reads the stream it built, empty but for its name,
    and asks the control plane no more: whatever became of the second
    attempt, [Exists] answers true and [Tags] answers with the empty map,
    both leaving the state as it is. *)
Theorem CreateImageStreamMapping_seeds_readers ist userClient tag image
    w out w' calls ns stream r :
  CreateImageStreamMapping ist userClient tag image w = (out, w') →
  trace w' = trace w ++ calls →
  CallImageStreamsCreate ns stream r ∈ calls →
  provisioningError ist r = None →
  imageStreamGetter_get ist w' = (Returned (Ok (provisionedStream ist)), w')
  ∧ Exists ist w' = (Returned (Ok true), w')
  ∧ Tags ist w' = (Returned (Ok ∅), w').
Proof.
  intros Hrun Htrace Hin Haccepted.
  assert (cachedImageStream w' = Some (provisionedStream ist)) as Hcached.
  { destruct (CreateImageStreamMapping_shape _ _ _ _ _ _ _ Hrun)
      as [(r1 & Htrace' & _)
         |[(r1 & r2 & rerr & Htrace' & Hrefused & _)
          |(r1 & r2 & r3 & Htrace' & _ & Hcache & _)]];
      [| |done]; rewrite Htrace in Htrace'; apply app_inv_head in Htrace';
      subst calls.
    - by apply list_elem_of_singleton in Hin.
    - apply elem_of_cons in Hin as [?|Hin]; [done|].
      apply list_elem_of_singleton in Hin. injection Hin as -> -> ->.
      congruence. }
  pose proof (imageStreamGetter_get_cached ist _ _ Hcached) as Hget.
  split; [done|]. split.
  - unfold Exists. by rewrite (bind_run _ _ _ _ _ Hget).
  - unfold Tags. by rewrite (bind_run _ _ _ _ _ Hget).
Qed.

Lemma namespaceNotFound_panics (err : error) (status : Status.t) w w1 :
  namespaceNotFound err status w = (Panicked, w1) →
  IsNotFound err = true ∧ Status.Details status = None.
Proof.
  unfold namespaceNotFound, panic, ret. destruct (IsNotFound err); [|done].
  by destruct (Status.Details status).
Qed.

Lemma notStreamNotFound_returns ist (status : Status.t) w w1 :
  notStreamNotFound ist status w ≠ (Panicked, w1).
Proof.
  unfold notStreamNotFound, isValidKind, panic, ret.
  destruct (Status.Details status); [|done].
  destruct (negb _); [done|]. by destruct (negb _).
Qed.

(** X8. The result of [CreateImageStreamMapping] is that of the last call
    it made. It returns no error only when that call is a creation of the
    mapping that succeeded; an error it returns wraps the error this call
    was answered with and has the code Forbidden or Unknown; it panics only
    when the first attempt, its only call, was answered with a not-found
    status error that has no details. *)
Theorem CreateImageStreamMapping_last_call ist userClient tag image w out w' :
  CreateImageStreamMapping ist userClient tag image w = (out, w') →
  ∃ calls final,
    trace w' = trace w ++ calls
    ∧ last calls = Some final
    ∧ match out with
      | Returned None =>
        isMappingCreation final = true ∧ answerError final = None
      | Returned (Some rerr) =>
        ∃ err, answerError final = Some err
               ∧ rerrors.Err rerr = Some err
               ∧ (rerrors.Code rerr = ErrImageStreamForbiddenCode
                  ∨ rerrors.Code rerr = ErrImageStreamUnknownErrorCode)
      | Panicked =>
        ∃ status,
          calls = [CallImageStreamMappingsCreate (namespace ist)
                     (mappingOf ist tag image) (Err (StatusError status))]
          ∧ IsNotFound (StatusError status) = true
          ∧ Status.Details status = None
      end.
Proof.
  unfold CreateImageStreamMapping, bind, call.
  fold (mappingOf ist tag image). fold (provisionedStream ist).
  destruct (client.ImageStreamMappings_Create _ _ _ _) as [r1 cp1].
  destruct r1 as [status1|err].
  { intros [= <- <-]. eexists [_], _. by repeat split. }
  destruct (IsErrorQuotaExceeded err).
  { intros [= <- <-]. eexists [_], _. repeat split. simpl. eauto 6. }
  destruct err as [status|code message cause|message]; simpl;
    [|intros [= <- <-]; eexists [_], _; repeat split; simpl; eauto 6..].
  destruct (namespaceNotFound _ _ _) as [[[|]|] x] eqn:Hnamespace.
  - apply namespaceNotFound_world in Hnamespace as ->.
    intros [= <- <-]. eexists [_], _. repeat split. simpl. eauto 6.
  - apply namespaceNotFound_world in Hnamespace as ->.
    destruct (notStreamNotFound _ _ _) as [[[|]|] y] eqn:Htarget.
    + apply notStreamNotFound_world in Htarget as ->.
      intros [= <- <-]. eexists [_], _. repeat split. simpl. eauto 6.
    + apply notStreamNotFound_world in Htarget as ->. simpl.
      destruct (client.ImageStreams_Create _ _ _ _) as [r2 cp2].
      destruct (provisioningError ist r2) as [rerr|] eqn:Hprovision.
      * intros [= <- <-]. simpl. rewrite <- app_assoc. simpl.
        eexists [_; _], _. split; [done|]. split; [done|].
        unfold provisioningError in Hprovision.
        destruct r2 as [created|err2]; [done|].
        destruct (_ || _)%bool; [done|].
        destruct (_ || _ || _)%bool; injection Hprovision as <-;
          simpl; eauto 6.
      * unfold cacheImageStream. simpl.
        destruct (client.ImageStreamMappings_Create _ _ _ _) as [r3 cp3].
        destruct r3 as [status3|err3].
        -- intros [= <- <-]. simpl. rewrite <- !app_assoc. simpl.
           eexists [_; _; _], _. by repeat split.
        -- destruct (IsErrorQuotaExceeded err3); intros [= <- <-]; simpl;
             rewrite <- !app_assoc; simpl;
             eexists [_; _; _], _; repeat split; simpl; eauto 6.
    + by apply notStreamNotFound_returns in Htarget.
  - pose proof Hnamespace as Hsame.
    apply namespaceNotFound_world in Hsame as ->.
    apply namespaceNotFound_panics in Hnamespace as [Hnotfound Hdetails].
    intros [= <- <-]. eexists [_], _. repeat split. simpl. eauto.
Qed.

(** X9. A first attempt answered with a not-found status error that has no
    details, and that tells no exceeded quota, makes
    [CreateImageStreamMapping] panic: the details are read before they are
    tested for nil. The run made this one call. *)
Theorem CreateImageStreamMapping_panics_without_details ist userClient tag
    image w status cp :
  client.ImageStreamMappings_Create (registryOSClient ist) (namespace ist)
    (mappingOf ist tag image) (controlPlane w)
  = (Err (StatusError status), cp) →
  IsErrorQuotaExceeded (StatusError status) = false →
  IsNotFound (StatusError status) = true →
  Status.Details status = None →
  ∃ w', CreateImageStreamMapping ist userClient tag image w = (Panicked, w')
        ∧ trace w'
          = trace w ++ [CallImageStreamMappingsCreate (namespace ist)
                          (mappingOf ist tag image)
                          (Err (StatusError status))]
        ∧ cachedImageStream w' = cachedImageStream w.
Proof.
  intros Hfirst Hquota Hnotfound Hdetails. unfold CreateImageStreamMapping.
  rewrite (bind_run _ _ _ _ _ (call_run _ _ _ _ _ Hfirst)).
  rewrite Hquota. simpl. unfold namespaceNotFound.
  rewrite Hnotfound, Hdetails. unfold bind, panic. eexists. by repeat split.
Qed.

(** X10. A provisioning call answered with an error that is neither
    AlreadyExists nor Conflict ends the run: no second attempt is made and
    the cached stream is not seeded. The error returned wraps the answer;
    its code is Forbidden when the answer is a forbidden, unauthorized or
    exceeded-quota error and Unknown otherwise. *)
Theorem CreateImageStreamMapping_refused_provisioning ist userClient tag image
    w out w' calls ns stream err :
  CreateImageStreamMapping ist userClient tag image w = (out, w') →
  trace w' = trace w ++ calls →
  CallImageStreamsCreate ns stream (Err err) ∈ calls →
  IsAlreadyExists err = false →
  IsConflict err = false →
  ∃ rerr first,
    out = Returned (Some rerr)
    ∧ rerrors.Err rerr = Some err
    ∧ rerrors.Code rerr
      = (if (IsForbidden err || IsUnauthorized err
             || IsErrorQuotaExceeded err)%bool
         then ErrImageStreamForbiddenCode
         else ErrImageStreamUnknownErrorCode)
    ∧ calls
      = [CallImageStreamMappingsCreate (namespace ist)
           (mappingOf ist tag image) first;
         CallImageStreamsCreate ns stream (Err err)]
    ∧ cachedImageStream w' = cachedImageStream w.
Proof.
  intros Hrun Htrace Hin Hexists Hconflict.
  assert (∀ rerr, provisioningError ist (Err err) = Some rerr →
            rerrors.Err rerr = Some err
            ∧ rerrors.Code rerr
              = (if (IsForbidden err || IsUnauthorized err
                     || IsErrorQuotaExceeded err)%bool
                 then ErrImageStreamForbiddenCode
                 else ErrImageStreamUnknownErrorCode)) as Hcode.
  { intros rerr. unfold provisioningError. rewrite Hexists, Hconflict. simpl.
    destruct (_ || _ || _)%bool; by intros [= <-]. }
  destruct (CreateImageStreamMapping_shape _ _ _ _ _ _ _ Hrun)
    as [(r1 & Htrace' & _)
       |[(r1 & r2 & rerr & Htrace' & Hrefused & Hout & Hcache)
        |(r1 & r2 & r3 & Htrace' & Haccepted & _)]];
    rewrite Htrace in Htrace'; apply app_inv_head in Htrace'; subst calls.
  - by apply list_elem_of_singleton in Hin.
  - apply elem_of_cons in Hin as [?|Hin]; [done|].
    apply list_elem_of_singleton in Hin. injection Hin as -> -> <-.
    destruct (Hcode _ Hrefused) as [Hcause Hcode'].
    by exists rerr, r1.
  - apply elem_of_cons in Hin as [?|Hin]; [done|].
    apply elem_of_cons in Hin as [Hin|Hin];
      [|by apply list_elem_of_singleton in Hin].
    injection Hin as -> -> <-.
    unfold provisioningError in Haccepted.
    rewrite Hexists, Hconflict in Haccepted. simpl in Haccepted.
    by destruct (_ || _ || _)%bool.
Qed.
End Provisioning.

Section Registries.
Context {CP : Type}.
Context `{kerrors : !KErrors, libraries : !Libraries, originUtil : !OriginUtil,
          getterCodes : !GetterCodes, runtime : !GoRuntime,
          parseFailure : !ParseFailure, candidates : !Candidates}.
Implicit Types (ist : imageStream CP) (w : World CP).

(** X11. With the stream at hand [localRegistry] does not fail, whether
    the repositories of the status parse or not. It answers with the
    registry of the local repository and then that of the public one, each
    left out when it is empty, the public one also when the status names no
    public repository: at most two names, none empty, and the same name
    twice when both repositories are on one registry. *)
Theorem localRegistry_names ist stream w w1 :
  imageStreamGetter_get ist w = (Returned (Ok stream), w1) →
  let status := ImageStream.Status stream in
  let local :=
    DockerImageReference.Registry
      (parsedOrLogged (ImageStreamStatus.DockerImageRepository status)) in
  let public :=
    DockerImageReference.Registry
      (parsedOrLogged (ImageStreamStatus.PublicDockerImageRepository status)) in
  ∃ names,
    localRegistry ist w = (Returned (Ok names), w1)
    ∧ (List.length names ≤ 2)%nat
    ∧ Forall (λ n, n ≠ "") names
    ∧ (ImageStreamStatus.PublicDockerImageRepository status = "" →
       names = if decide (local = "") then [] else [local])
    ∧ (local ≠ "" → public ≠ "" →
       ImageStreamStatus.PublicDockerImageRepository status ≠ "" →
       names = [local; public])
    ∧ (local = "" → public = "" → names = []).
Proof.
  intros Hget status local public. unfold localRegistry.
  rewrite (bind_run _ _ _ _ _ Hget). cbv zeta. fold status. fold local.
  fold public. eexists. split; [reflexivity|].
  destruct (ImageStreamStatus.PublicDockerImageRepository status) as [|c rest]
    eqn:Hpublic; simpl;
    destruct local as [|c1 rest1]; simpl;
    try (destruct public as [|c2 rest2]; simpl);
    repeat split; try done; try lia; auto;
    repeat (apply Forall_cons; split; [done|]); try apply Forall_nil.
Qed.

(** X12. [IdentifyCandidateRepositories] reads the stream once for itself
    and once through [localRegistry]; when the first read obtains the
    stream both see the same one, and the answer is that of
    [identifyCandidateRepositories] on this stream and its local registry
    names, with no error, whatever the parsing of the names gave. When the
    first read fails, the error is the converted one and the names are not
    looked for. *)
Theorem IdentifyCandidateRepositories_reads_once ist primary w :
  (∀ stream w1,
     imageStreamGetter_get ist w = (Returned (Ok stream), w1) →
     ∃ names,
       localRegistry ist w = (Returned (Ok names), w1)
       ∧ IdentifyCandidateRepositories ist primary w
         = (Returned (Ok (identifyCandidateRepositories stream names primary)),
            w1))
  ∧ (∀ rErr w1,
       imageStreamGetter_get ist w = (Returned (Err rErr), w1) →
       IdentifyCandidateRepositories ist primary w
       = (Returned (Err (convertImageStreamGetterError rErr
                           ("IdentifyCandidateRepositories: failed to get image stream "
                            +:+ Reference ist))), w1)).
Proof.
  split.
  - intros stream w1 Hget.
    destruct (localRegistry_names _ _ _ _ Hget) as (names & Hnames & _).
    exists names. split; [done|].
    pose proof (imageStreamGetter_get_cached ist _ _
                  (imageStreamGetter_get_caches _ _ _ _ Hget)) as Hagain.
    destruct (localRegistry_names _ _ _ _ Hagain) as (names' & Hnames' & _).
    assert (names' = names) as ->.
    { unfold localRegistry in Hnames, Hnames'.
      rewrite (bind_run _ _ _ _ _ Hget) in Hnames.
      rewrite (bind_run _ _ _ _ _ Hagain) in Hnames'.
      unfold ret in *. congruence. }
    unfold IdentifyCandidateRepositories.
    rewrite (bind_run _ _ _ _ _ Hget). by rewrite (bind_run _ _ _ _ _ Hnames').
  - intros rErr w1 Hget. unfold IdentifyCandidateRepositories.
    by rewrite (bind_run _ _ _ _ _ Hget).
Qed.
End Registries.

Section Limits.
Context {CP S : Type}.
Implicit Types (ist : imageStream CP) (l : Listing CP S)
  (limitRanges : LimitRangesLister CP) (c : ProjectObjectListStore.t S).

(** X13. When the cache holds an object for the namespace,
    [GetLimitRangeList] does not ask the control plane: a list of limit
    ranges is returned as it is, also when [Get] reported an error beside
    it; an object of another type, or none, makes the type assertion
    panic. *)
Theorem GetLimitRangeList_cached ist limitRanges c l obj err s :
  ProjectObjectListStore.Get c (namespace ist) (store l) = ((obj, true, err), s) →
  ∃ out,
    GetLimitRangeList ist limitRanges (Some c) l
    = (out, mkListing (plane l) s (listed l))
    ∧ match obj with
      | Some (LimitRangeListObject lrs) => out = Returned (Ok lrs)
      | _ => out = Panicked
      end.
Proof.
  intros Hget. unfold GetLimitRangeList, cachedObject. rewrite Hget.
  destruct obj as [[lrs|kind]|]; eauto.
Qed.

(** X14. When the cache is nil or holds nothing for the namespace,
    [GetLimitRangeList] lists the limit ranges once. A failure of the
    listing is returned with the code Unknown and nothing is added to the
    cache. A list is returned as it is and added to a cache that is not nil
    under the namespace; whether the addition fails does not show in the
    result. *)
Theorem GetLimitRangeList_lists ist limitRanges cache l s r cp :
  cachedObject ist cache l = (None, s) →
  limitRanges (namespace ist) (plane l) = (r, cp) →
  let calls := listed l ++ [CallLimitRangesList (namespace ist) r] in
  match r with
  | Err err =>
    ∃ rerr,
      GetLimitRangeList ist limitRanges cache l
      = (Returned (Err rerr), mkListing cp s calls)
      ∧ rerrors.Code rerr = ErrImageStreamUnknownErrorCode
      ∧ rerrors.Err rerr = Some err
  | Ok lrs =>
    GetLimitRangeList ist limitRanges cache l
    = (Returned (Ok lrs),
       mkListing cp
         (match cache with
          | Some c =>
            snd (ProjectObjectListStore.Add c (namespace ist)
                   (LimitRangeListObject lrs) s)
          | None => s
          end)
         calls)
  end.
Proof.
  intros Hmiss Hlist calls. unfold GetLimitRangeList. rewrite Hmiss, Hlist.
  destruct r as [lrs|err]; [|eauto].
  destruct cache as [c|]; [|done].
  by destruct (ProjectObjectListStore.Add c _ _ _).
Qed.

(** X15. With a store that gives back what was added to it, a list of limit
    ranges obtained once is not listed again: after a call that listed
    them, the next call returns the same list and makes no call to the
    control plane. *)
Theorem GetLimitRangeList_twice ist limitRanges c l lrs l1 s0 :
  (∀ ns obj s s' err,
     ProjectObjectListStore.Add c ns obj s = (err, s') →
     ProjectObjectListStore.Get c ns s' = ((Some obj, true, None), s')) →
  cachedObject ist (Some c) l = (None, s0) →
  GetLimitRangeList ist limitRanges (Some c) l = (Returned (Ok lrs), l1) →
  GetLimitRangeList ist limitRanges (Some c) l1 = (Returned (Ok lrs), l1)
  ∧ ∃ r, listed l1 = listed l ++ [CallLimitRangesList (namespace ist) r].
Proof.
  intros Hlaw Hmiss Hrun. unfold GetLimitRangeList in Hrun.
  rewrite Hmiss in Hrun.
  destruct (limitRanges _ _) as [[listed_|err'] cp]; [|done].
  destruct (ProjectObjectListStore.Add c _ _ _) as [err' s'] eqn:Hadd.
  injection Hrun as <- <-. split; [|eauto].
  apply Hlaw in Hadd.
  destruct (GetLimitRangeList_cached ist limitRanges c
              (mkListing cp s' (listed l ++ [CallLimitRangesList (namespace ist)
                                               (Ok listed_)]))
              _ _ _ Hadd) as (out & Hrun & ->).
  exact Hrun.
Qed.
End Limits.

(** * Runs on the sample cluster *)

Section Runs.
Import Sample.
#[local] Existing Instances kerrors libraries originUtil getterCodes runtime.

Lemma cacheInHeap_start (c : Cluster) : cacheInHeap (start c).
Proof. intros dgst image Hin. simpl in Hin. by rewrite lookup_empty in Hin. Qed.

(** With the search of the tag history modelled from the spec, a digest that
    no event of the histories carries does not resolve: the search answers
    not found, and [ResolveImageID] fails with ImageNotFound. *)
Lemma resolveImageID_absent (stream : ImageStream.t) (imageID : string) :
  (∀ history event,
     history ∈ ImageStreamStatus.Tags (ImageStream.Status stream) →
     event ∈ NamedTagEventList.Items history →
     TagEvent.Image event ≠ imageID) →
  resolveImageID stream imageID = Err (notFound "imagestreamimage" imageID).
Proof.
  intros Habsent. unfold resolveImageID.
  destruct (matching stream imageID) as [|[tg event] rest] eqn:Hmatching; [done|].
  assert ((tg, event) ∈ matching stream imageID) as Hin
    by (rewrite Hmatching; left).
  unfold matching, events in Hin.
  apply list_elem_of_In, filter_In in Hin as [Hin Himage].
  apply in_flat_map in Hin as (history & Hhistory & Hevent).
  apply in_map_iff in Hevent as (event' & [= _ ->] & Hevent).
  apply String.eqb_eq in Himage.
  destruct (Habsent history event); [by apply list_elem_of_In.. | done].
Qed.

Lemma GetImageOfImageStream_tagged_witness :
  let w := start cluster in
  let w1 := snd (ResolveImageID app dgstApp w) in
  let w2 := snd (getImage app dgstApp w1) in
  let event := tagEvent 20 "quay.example/team/app@sha256:aaa" dgstApp in
  let stored := image dgstApp "registry.local:5000/team/app@sha256:aaa" in
  ResolveImageID app dgstApp w = (Returned (Ok event), w1)
  ∧ getImage app dgstApp w1 = (Returned (Ok 0%nat), w2)
  ∧ heap w2 !! 0%nat = Some stored
  ∧ ∃ p w3 returned,
      GetImageOfImageStream app dgstApp w = (Returned (Ok p), w3)
      ∧ heap w3 !! p = Some returned
      ∧ returned = image dgstApp "quay.example/team/app@sha256:aaa".
Proof.
  intros w w1 w2 event stored.
  assert (ResolveImageID app dgstApp w = (Returned (Ok event), w1)) as Hresolve
    by (vm_compute; reflexivity).
  assert (getImage app dgstApp w1 = (Returned (Ok 0%nat), w2)) as Hget
    by (vm_compute; reflexivity).
  assert (heap w2 !! 0%nat = Some stored) as Hstored
    by (vm_compute; reflexivity).
  repeat (split; [assumption|]).
  destruct (GetImageOfImageStream_tagged app dgstApp event 0%nat stored
              w w1 w2 Hresolve Hget Hstored)
    as (p & w3 & returned & Hrun & Hheap & _ & Hreturned & _).
  exists p, w3, returned. repeat split; [exact Hrun | exact Hheap |].
  rewrite Hreturned. reflexivity.
Defined.

(** A statement about every entry of a map that is given entry by entry. *)
Lemma every_entry {V} (P : string → V → Prop) `{!∀ k v, Decision (P k v)}
    (m : gmap string V) :
  bool_decide (map_Forall P m) = true → ∀ k v, m !! k = Some v → P k v.
Proof. intros Hdec. by apply bool_decide_eq_true in Hdec. Qed.

Lemma GetImageOfImageStream_child_of_only_parent_witness :
  let w := start cluster in
  let w1 := snd (ResolveImageID app dgstChild w) in
  let w2 := snd (imageStreamGetter_layers app w1) in
  let w3 := snd (ResolveImageID app dgstList w2) in
  let w4 := snd (getImage app dgstChild w3) in
  let err :=
    rerrors.NewError "ImageStream:ImageNotFound"
      "ResolveImageID: unable to resolve ImageID sha256:222 in image stream team/app"
      (Some (notFound "imagestreamimage" dgstChild)) in
  let layers :=
    appLayers {[ dgstList := listOf [dgstChild; "sha256:444"];
                 dgstApp := listOf [] ]} in
  let parentEvent := tagEvent 10 "quay.example/team/multi@sha256:111" dgstList in
  let parentRef :=
    DockerImageReference.Build "quay.example" "team" "multi" "" "sha256:111" in
  let stored := image dgstChild "registry.local:5000/team/app@sha256:222" in
  ResolveImageID app dgstChild w = (Returned (Err err), w1)
  ∧ imageStreamGetter_layers app w1 = (Returned (Ok layers), w2)
  ∧ ImageStreamLayers.Images layers !! dgstList
    = Some (listOf [dgstChild; "sha256:444"])
  ∧ ResolveImageID app dgstList w2 = (Returned (Ok parentEvent), w3)
  ∧ reference_Parse (TagEvent.DockerImageReference parentEvent) = Ok parentRef
  ∧ getImage app dgstChild w3 = (Returned (Ok 0%nat), w4)
  ∧ heap w4 !! 0%nat = Some stored
  ∧ ∃ p w5 returned,
      GetImageOfImageStream app dgstChild w = (Returned (Ok p), w5)
      ∧ heap w5 !! p = Some returned
      ∧ Image.DockerImageReference returned
        = "quay.example/team/multi@sha256:222".
Proof.
  intros w w1 w2 w3 w4 err layers parentEvent parentRef stored.
  assert (ResolveImageID app dgstChild w = (Returned (Err err), w1)) as Hdirect
    by (vm_compute; reflexivity).
  assert (imageStreamGetter_layers app w1 = (Returned (Ok layers), w2))
    as Hlayers by (vm_compute; reflexivity).
  assert (ImageStreamLayers.Images layers !! dgstList
          = Some (listOf [dgstChild; "sha256:444"])) as Hparent
    by (vm_compute; reflexivity).
  assert (ResolveImageID app dgstList w2 = (Returned (Ok parentEvent), w3))
    as Hresolve by (vm_compute; reflexivity).
  assert (reference_Parse (TagEvent.DockerImageReference parentEvent)
          = Ok parentRef) as Hparse by (vm_compute; reflexivity).
  assert (getImage app dgstChild w3 = (Returned (Ok 0%nat), w4)) as Hget
    by (vm_compute; reflexivity).
  assert (heap w4 !! 0%nat = Some stored) as Hstored
    by (vm_compute; reflexivity).
  repeat (split; [assumption|]).
  destruct (GetImageOfImageStream_child_of_only_parent app dgstChild err layers
              dgstList (listOf [dgstChild; "sha256:444"]) parentEvent parentRef
              0%nat stored w w1 w2 w3 w4 Hdirect Hlayers Hparent)
    as (p & w5 & returned & Hrun & Hheap & Href & _);
    [by left | | done | done | done | done | done |].
  - apply (every_entry
             (λ other ibr', dgstChild ∈ ImageBlobReferences.Manifests ibr'
                            → other = dgstList)).
    vm_compute. reflexivity.
  - exists p, w5, returned. repeat split; [exact Hrun | exact Hheap |].
    rewrite Href. vm_compute. reflexivity.
Defined.

(** C2 fails where two manifest lists hold the digest. In [twoParents] the
    digest [dgstChild] does not resolve, and both [dgstList] and
    [dgstOtherList] hold it, resolve, and have references that parse, on
    two registries. Whatever the order in which the run visits the layers,
    one of the two meets every condition of the claim and the image
    returned does not carry its registry and repository. *)
Lemma GetImageOfImageStream_two_parents :
  let w := start twoParents in
  let w1 := snd (ResolveImageID app dgstChild w) in
  let w2 := snd (imageStreamGetter_layers app w1) in
  let layers :=
    appLayers {[ dgstList := listOf [dgstChild];
                 dgstOtherList := listOf [dgstChild] ]} in
  let err :=
    rerrors.NewError "ImageStream:ImageNotFound"
      "ResolveImageID: unable to resolve ImageID sha256:222 in image stream team/app"
      (Some (notFound "imagestreamimage" dgstChild)) in
  ResolveImageID app dgstChild w = (Returned (Err err), w1)
  ∧ imageStreamGetter_layers app w1 = (Returned (Ok layers), w2)
  ∧ ∀ rt : GoRuntime,
      ∃ parent ibr parentEvent parentRef image img w3 w4,
        ImageStreamLayers.Images layers !! parent = Some ibr
        ∧ dgstChild ∈ ImageBlobReferences.Manifests ibr
        ∧ ResolveImageID app parent w2 = (Returned (Ok parentEvent), w3)
        ∧ reference_Parse (TagEvent.DockerImageReference parentEvent)
          = Ok parentRef
        ∧ getImage app dgstChild w3 = (Returned (Ok image), w4)
        ∧ heap w4 !! image = Some img
        ∧ ∃ p w5 returned,
            GetImageOfImageStream (runtime:=rt) app dgstChild w
            = (Returned (Ok p), w5)
            ∧ heap w5 !! p = Some returned
            ∧ Image.DockerImageReference returned
              ≠ reference_String
                  (DockerImageReference.Build
                     (DockerImageReference.Registry parentRef)
                     (DockerImageReference.Namespace parentRef)
                     (DockerImageReference.Name parentRef) "" dgstChild).
Proof.
  intros w w1 w2 layers err.
  assert (ResolveImageID app dgstChild w = (Returned (Err err), w1))
    as Hdirect by (vm_compute; reflexivity).
  split; [exact Hdirect|].
  assert (imageStreamGetter_layers app w1 = (Returned (Ok layers), w2))
    as Hlayers by (vm_compute; reflexivity).
  split; [exact Hlayers|]. intros rt.
  pose (first := tagEvent 10 "quay.example/team/multi@sha256:111" dgstList).
  pose (second :=
          tagEvent 40 "mirror.example/other/multi@sha256:333" dgstOtherList).
  pose (stored := image dgstChild "registry.local:5000/team/app@sha256:222").
  pose (w3 := snd (ResolveImageID app dgstList w2)).
  pose (w4 := snd (getImage app dgstChild w3)).
  pose (w3' := snd (ResolveImageID app dgstOtherList w2)).
  pose (w4' := snd (getImage app dgstChild w3')).
  assert (ResolveImageID app dgstList w2 = (Returned (Ok first), w3))
    as Hresolve by (vm_compute; reflexivity).
  assert (getImage app dgstChild w3 = (Returned (Ok 0%nat), w4))
    as Hget by (vm_compute; reflexivity).
  assert (heap w4 !! 0%nat = Some stored) as Hstored
    by (vm_compute; reflexivity).
  assert (ResolveImageID app dgstOtherList w2 = (Returned (Ok second), w3'))
    as Hresolve' by (vm_compute; reflexivity).
  assert (getImage app dgstChild w3' = (Returned (Ok 0%nat), w4'))
    as Hget' by (vm_compute; reflexivity).
  assert (heap w4' !! 0%nat = Some stored) as Hstored'
    by (vm_compute; reflexivity).
  assert (range_Images (ImageStreamLayers.Images layers)
          = [(dgstList, listOf [dgstChild]); (dgstOtherList, listOf [dgstChild])]
          ∨ range_Images (ImageStreamLayers.Images layers)
            = [(dgstOtherList, listOf [dgstChild]); (dgstList, listOf [dgstChild])])
    as Horder.
  { pose proof (range_Images_perm (ImageStreamLayers.Images layers)) as Hperm.
    assert (map_to_list (ImageStreamLayers.Images layers)
            = [(dgstOtherList, listOf [dgstChild]);
               (dgstList, listOf [dgstChild])]) as Hlist
      by (vm_compute; reflexivity).
    rewrite Hlist in Hperm. symmetry in Hperm.
    apply Permutation_length_2_inv in Hperm as [->| ->]; auto. }
  destruct Horder as [Horder|Horder].
  - (* the run finds [dgstList]; the claim fails for [dgstOtherList] *)
    assert (findParent (range_Images (ImageStreamLayers.Images layers))
              dgstChild = dgstList) as Hfound
      by (rewrite Horder; vm_compute; reflexivity).
    destruct (GetImageOfImageStream_child_run app dgstChild err layers dgstList
                first
                (DockerImageReference.Build "quay.example" "team" "multi" ""
                   "sha256:111")
                0%nat stored w w1 w2 _ _ Hdirect Hlayers Hfound
                ltac:(discriminate) Hresolve ltac:(vm_compute; reflexivity)
                Hget Hstored)
      as (w5 & Hrun & Hheap).
    exists dgstOtherList, (listOf [dgstChild]), second,
      (DockerImageReference.Build "mirror.example" "other" "multi" ""
         "sha256:333"), 0%nat, stored.
    exists w3', w4'.
    split; [vm_compute; reflexivity|]. split; [by left|].
    split; [exact Hresolve'|]. split; [vm_compute; reflexivity|].
    split; [exact Hget'|]. split; [exact Hstored'|].
    eexists _, w5, _. split; [exact Hrun|]. rewrite Hheap. split.
    + by apply list_lookup_middle.
    + vm_compute. discriminate.
  - (* the run finds [dgstOtherList]; the claim fails for [dgstList] *)
    assert (findParent (range_Images (ImageStreamLayers.Images layers))
              dgstChild = dgstOtherList) as Hfound
      by (rewrite Horder; vm_compute; reflexivity).
    destruct (GetImageOfImageStream_child_run app dgstChild err layers
                dgstOtherList second
                (DockerImageReference.Build "mirror.example" "other" "multi" ""
                   "sha256:333")
                0%nat stored w w1 w2 _ _ Hdirect Hlayers Hfound
                ltac:(discriminate) Hresolve' ltac:(vm_compute; reflexivity)
                Hget' Hstored')
      as (w5 & Hrun & Hheap).
    exists dgstList, (listOf [dgstChild]), first,
      (DockerImageReference.Build "quay.example" "team" "multi" ""
         "sha256:111"), 0%nat, stored.
    exists w3, w4.
    split; [vm_compute; reflexivity|]. split; [by left|].
    split; [exact Hresolve|]. split; [vm_compute; reflexivity|].
    split; [exact Hget|]. split; [exact Hstored|].
    eexists _, w5, _. split; [exact Hrun|]. rewrite Hheap. split.
    + by apply list_lookup_middle.
    + vm_compute. discriminate.
Qed.

Lemma GetImageOfImageStream_not_found_witness :
  let w := start cluster in
  let w1 := snd (ResolveImageID app dgstUnknown w) in
  let w2 := snd (imageStreamGetter_layers app w1) in
  let err :=
    rerrors.NewError "ImageStream:ImageNotFound"
      "ResolveImageID: unable to resolve ImageID sha256:999 in image stream team/app"
      (Some (notFound "imagestreamimage" dgstUnknown)) in
  let layers :=
    appLayers {[ dgstList := listOf [dgstChild; "sha256:444"];
                 dgstApp := listOf [] ]} in
  ResolveImageID app dgstUnknown w = (Returned (Err err), w1)
  ∧ imageStreamGetter_layers app w1 = (Returned (Ok layers), w2)
  ∧ ∃ rerr, GetImageOfImageStream app dgstUnknown w = (Returned (Err rerr), w2)
            ∧ rerrors.Code rerr = "ImageStream:ImageNotFound".
Proof.
  intros w w1 w2 err layers.
  assert (ResolveImageID app dgstUnknown w = (Returned (Err err), w1))
    as Hdirect by (vm_compute; reflexivity).
  assert (imageStreamGetter_layers app w1 = (Returned (Ok layers), w2))
    as Hlayers by (vm_compute; reflexivity).
  repeat (split; [assumption|]).
  apply (GetImageOfImageStream_not_found app dgstUnknown err layers w w1 w2
           Hdirect Hlayers).
  apply (every_entry
           (λ _ ibr, dgstUnknown ∉ ImageBlobReferences.Manifests ibr)).
  vm_compute. reflexivity.
Defined.

Lemma GetImageOfImageStream_reports_parent_failure_witness :
  let w := start cluster in
  let w1 := snd (getImageOfImageStream app dgstUnknown w) in
  let w2 := snd (resolveUpstreamRef app dgstUnknown w1) in
  let direct :=
    rerrors.NewError "ImageStream:ImageNotFound"
      "ResolveImageID: unable to resolve ImageID sha256:999 in image stream team/app"
      (Some (notFound "imagestreamimage" dgstUnknown)) in
  let parentErr :=
    rerrors.NewError "ImageStream:ImageNotFound"
      "resolveUpstreamRef: unable to find parent for image sha256:999 in image stream team/app"
      None in
  getImageOfImageStream app dgstUnknown w = (Returned (Err direct), w1)
  ∧ resolveUpstreamRef app dgstUnknown w1 = (Returned (Err parentErr), w2)
  ∧ GetImageOfImageStream app dgstUnknown w = (Returned (Err parentErr), w2).
Proof.
  intros w w1 w2 direct parentErr.
  assert (getImageOfImageStream app dgstUnknown w = (Returned (Err direct), w1))
    as Hdirect by (vm_compute; reflexivity).
  assert (resolveUpstreamRef app dgstUnknown w1 = (Returned (Err parentErr), w2))
    as Hparent by (vm_compute; reflexivity).
  repeat (split; [assumption|]).
  apply (proj1 (GetImageOfImageStream_reports_parent_failure app dgstUnknown
                  direct parentErr w w1 w2 Hdirect Hparent)).
Defined.

Lemma GetImageOfImageStream_frame_witness :
  let w := start cluster in
  cacheInHeap w
  ∧ imagesUntouched dgstChild w
      (fst (GetImageOfImageStream app dgstChild w))
      (snd (GetImageOfImageStream app dgstChild w))
  ∧ fst (GetImageOfImageStream app dgstChild w) = Returned (Ok 1%nat).
Proof.
  intros w. split; [apply cacheInHeap_start|]. split; [|vm_compute; reflexivity].
  apply (GetImageOfImageStream_frame app dgstChild w (cacheInHeap_start cluster)).
  apply surjective_pairing.
Defined.

Lemma TagIsInsecure_policy_witness :
  let w := start cluster in
  let w1 := snd (imageStreamGetter_get app w) in
  let insecure := start insecureCluster in
  let insecure1 := snd (imageStreamGetter_get app insecure) in
  imageStreamGetter_get app w = (Returned (Ok (appStream ∅ [])), w1)
  ∧ imageStreamGetter_get app insecure
    = (Returned (Ok (appStream
                       {[ "openshift.io/image.insecureRepository" := "true" ]}
                       [])), insecure1)
  ∧ TagIsInsecure app "latest" dgstApp insecure = (Returned (Ok true), insecure1)
  ∧ TagIsInsecure app "edge" "" w = (Returned (Ok true), w1)
  ∧ TagIsInsecure app "latest" "" w = (Returned (Ok false), w1)
  ∧ TagIsInsecure app "" dgstApp w = TagIsInsecure app "edge" dgstApp w.
Proof.
  intros w w1 insecure insecure1.
  assert (imageStreamGetter_get app w = (Returned (Ok (appStream ∅ [])), w1))
    as Hget by (vm_compute; reflexivity).
  assert (imageStreamGetter_get app insecure
          = (Returned (Ok (appStream
                             {[ "openshift.io/image.insecureRepository" := "true" ]}
                             [])), insecure1))
    as Hget' by (vm_compute; reflexivity).
  repeat (split; [assumption|]).
  destruct (TagIsInsecure_policy app _ w w1 Hget) as (_ & Hnamed & Hdigest).
  destruct (TagIsInsecure_policy app _ insecure insecure1 Hget')
    as (Hwhole & _ & _).
  split; [apply Hwhole; vm_compute; reflexivity|].
  split.
  { apply (proj1 (Hnamed ltac:(vm_compute; discriminate) "edge" ""
                    ltac:(discriminate))
             [TagReference.Build "latest" (TagImportPolicy.Build false false)]
             (TagReference.Build "edge" (TagImportPolicy.Build true false)) []);
      [reflexivity | reflexivity |].
    intros t' Hin%list_elem_of_singleton. subst. discriminate. }
  split.
  { apply (proj1 (Hnamed ltac:(vm_compute; discriminate) "latest" ""
                    ltac:(discriminate))
             [] (TagReference.Build "latest" (TagImportPolicy.Build false false))
             [TagReference.Build "edge" (TagImportPolicy.Build true false)]);
      [reflexivity | reflexivity |].
    intros t' Hin. by apply elem_of_nil in Hin. }
  apply (Hdigest ltac:(vm_compute; discriminate) dgstApp).
  vm_compute. discriminate.
Defined.

Lemma Tags_first_items_witness :
  let w := start cluster in
  let w1 := snd (imageStreamGetter_get app w) in
  imageStreamGetter_get app w = (Returned (Ok (appStream ∅ [])), w1)
  ∧ ∃ m, Tags app w = (Returned (Ok m), w1)
         ∧ m !! "latest" = Some dgstApp
         ∧ m !! "empty" = None
         ∧ m !! "broken" = None.
Proof.
  intros w w1.
  assert (imageStreamGetter_get app w = (Returned (Ok (appStream ∅ [])), w1))
    as Hget by (vm_compute; reflexivity).
  split; [exact Hget|].
  destruct (Tags_first_items app _ w w1 Hget) as (m & Hrun & _ & Honly & Hnone).
  exists m. split; [exact Hrun|]. split; [|split].
  - apply (Honly [] (NamedTagEventList.Build "latest"
                       [tagEvent 20 "quay.example/team/app@sha256:aaa" dgstApp])
             _ eq_refl).
    intros other Hin.
    repeat (apply elem_of_cons in Hin as [->|Hin]; [discriminate|]).
    by apply elem_of_nil in Hin.
  - apply Hnone. intros history Hin Htag.
    repeat (apply elem_of_cons in Hin as [->|Hin];
            [try discriminate Htag; try exact I|]).
    by apply elem_of_nil in Hin.
  - apply Hnone. intros history Hin Htag.
    repeat (apply elem_of_cons in Hin as [->|Hin];
            [try discriminate Htag; try reflexivity|]).
    by apply elem_of_nil in Hin.
Defined.

Lemma CreateImageStreamMapping_quota_exceeded_witness :
  let w := start noQuota in
  client.ImageStreamMappings_Create (registryOSClient app) (namespace app)
    (mappingOf app "v1" pushed) (controlPlane w) = (Err quotaExceeded, noQuota)
  ∧ IsErrorQuotaExceeded quotaExceeded = true
  ∧ ∃ rerr w',
      CreateImageStreamMapping app clusterClient "v1" pushed w
      = (Returned (Some rerr), w')
      ∧ rerrors.Code rerr = "ImageStream:Forbidden"
      ∧ trace w'
        = [CallImageStreamMappingsCreate "team" (mappingOf app "v1" pushed)
             (Err quotaExceeded)].
Proof.
  intros w.
  assert (client.ImageStreamMappings_Create (registryOSClient app)
            (namespace app) (mappingOf app "v1" pushed) (controlPlane w)
          = (Err quotaExceeded, noQuota)) as Hfirst by (vm_compute; reflexivity).
  assert (IsErrorQuotaExceeded quotaExceeded = true) as Hquota
    by (vm_compute; reflexivity).
  repeat (split; [assumption|]).
  destruct (CreateImageStreamMapping_quota_exceeded app clusterClient "v1"
              pushed w quotaExceeded noQuota Hfirst Hquota)
    as (rerr & w' & Hrun & Hcode & Htrace & _).
  exists rerr, w'. repeat split; [exact Hrun | exact Hcode | exact Htrace].
Defined.

Lemma CreateImageStreamMapping_first_attempt_witness :
  let w := start noNamespace in
  let r := Err (notFound "namespaces" "team") in
  client.ImageStreamMappings_Create (registryOSClient app) (namespace app)
    (mappingOf app "v1" pushed) (controlPlane w) = (r, noNamespace)
  ∧ endsAfterFirstAttempt app clusterClient "v1" pushed w r
      (Some "ImageStream:Forbidden").
Proof.
  intros w r.
  assert (client.ImageStreamMappings_Create (registryOSClient app)
            (namespace app) (mappingOf app "v1" pushed) (controlPlane w)
          = (r, noNamespace)) as Hfirst by (vm_compute; reflexivity).
  split; [exact Hfirst|].
  destruct (CreateImageStreamMapping_first_attempt app clusterClient "v1"
              pushed w r noNamespace Hfirst)
    as (_ & _ & _ & Hnamespace & _).
  apply (Hnamespace _ (StatusDetails.Build "team" "namespaces") eq_refl);
    vm_compute; reflexivity.
Defined.

(** C6 fails on a missing namespace. The first attempt in [noNamespace]
    fails with a not-found error on the namespace: no exceeded quota, and
    not the stream of the mapping reported as not found; the result is
    Forbidden, not Unknown. *)
Lemma CreateImageStreamMapping_missing_namespace :
  let w := start noNamespace in
  let err := notFound "namespaces" "team" in
  client.ImageStreamMappings_Create (registryOSClient app) (namespace app)
    (mappingOf app "v1" pushed) (controlPlane w) = (Err err, noNamespace)
  ∧ IsErrorQuotaExceeded err = false
  ∧ targetStreamNotFound app err = false
  ∧ ∃ rerr w',
      CreateImageStreamMapping app clusterClient "v1" pushed w
      = (Returned (Some rerr), w')
      ∧ rerrors.Code rerr = ErrImageStreamForbiddenCode
      ∧ rerrors.Code rerr ≠ ErrImageStreamUnknownErrorCode.
Proof.
  intros w err. repeat split; try (vm_compute; reflexivity).
  eexists _, _. split; [vm_compute; reflexivity|].
  split; [vm_compute; reflexivity | vm_compute; discriminate].
Qed.

Lemma CreateImageStreamMapping_one_retry_witness :
  let w := start noStream in
  let run := CreateImageStreamMapping app clusterClient "v1" pushed w in
  run = (Returned None, snd run)
  ∧ cachedImageStream (snd run) = Some (provisionedStream app)
  ∧ ∃ calls,
      trace (snd run) = trace w ++ calls
      ∧ List.length (List.filter isProvisioning calls) = 1%nat
      ∧ List.length (List.filter isMappingCreation calls) = 2%nat.
Proof.
  intros w run.
  assert (run = (Returned None, snd run)) as Hrun by (vm_compute; reflexivity).
  split; [exact Hrun|].
  destruct (CreateImageStreamMapping_one_retry app clusterClient "v1" pushed w
              _ _ Hrun) as (calls & Htrace & _ & _ & Hprovisioned).
  destruct (Hprovisioned "team" (provisionedStream app)
              (Ok (provisionedStream app)))
    as (_ & Hcache & first & retry & Hcalls & _).
  - assert (trace (snd run)
            = trace w
              ++ [CallImageStreamMappingsCreate "team"
                    (mappingOf app "v1" pushed)
                    (Err (notFound "imagestreammappings" "app"));
                  CallImageStreamsCreate "team" (provisionedStream app)
                    (Ok (provisionedStream app));
                  CallImageStreamMappingsCreate "team"
                    (mappingOf app "v1" pushed) (Ok success)]) as Hlog
      by (vm_compute; reflexivity).
    rewrite Htrace in Hlog. apply app_inv_head in Hlog. rewrite Hlog.
    apply elem_of_cons. right. apply list_elem_of_here.
  - by left.
  - split; [exact Hcache|]. exists calls. split; [exact Htrace|].
    by rewrite Hcalls.
Defined.
End Runs.

Section MoreRuns.
Import Sample SampleMore.
#[local] Existing Instances kerrors libraries originUtil getterCodes runtime
  parseFailure candidates.

Lemma GetImageOfImageStream_origin_witness :
  let w := start cluster in
  let run := GetImageOfImageStream app dgstChild w in
  run = (Returned (Ok 1%nat), snd run)
  ∧ ∃ returned, heap (snd run) !! 1%nat = Some returned.
Proof.
  intros w run.
  assert (run = (Returned (Ok 1%nat), snd run)) as Hrun
    by (vm_compute; reflexivity).
  split; [exact Hrun|].
  destruct (GetImageOfImageStream_origin app dgstChild 1%nat w (snd run) Hrun)
    as (returned & Hheap & _).
  by exists returned.
Defined.

Lemma GetImageOfImageStream_error_codes_witness :
  let w := start cluster in
  let run := GetImageOfImageStream app dgstUnknown w in
  let err :=
    rerrors.NewError "ImageStream:ImageNotFound"
      "resolveUpstreamRef: unable to find parent for image sha256:999 in image stream team/app"
      None in
  run = (Returned (Err err), snd run)
  ∧ (rerrors.Code err = ErrImageStreamImageNotFoundCode
     ∨ rerrors.Code err = ErrImageStreamUnknownErrorCode).
Proof.
  intros w run err.
  assert (run = (Returned (Err err), snd run)) as Hrun
    by (vm_compute; reflexivity).
  split; [exact Hrun|].
  exact (GetImageOfImageStream_error_codes app dgstUnknown err w (snd run) Hrun).
Defined.


Lemma GetImageOfImageStream_fetches_members_only_witness :
  let w := start cluster in
  let w1 := snd (ResolveImageID app dgstUnknown w) in
  let w2 := snd (resolveUpstreamRef app dgstUnknown w1) in
  let err :=
    rerrors.NewError "ImageStream:ImageNotFound"
      "ResolveImageID: unable to resolve ImageID sha256:999 in image stream team/app"
      (Some (notFound "imagestreamimage" dgstUnknown)) in
  let parentErr :=
    rerrors.NewError "ImageStream:ImageNotFound"
      "resolveUpstreamRef: unable to find parent for image sha256:999 in image stream team/app"
      None in
  ResolveImageID app dgstUnknown w = (Returned (Err err), w1)
  ∧ resolveUpstreamRef app dgstUnknown w1 = (Returned (Err parentErr), w2)
  ∧ heap w2 = heap w
  ∧ ∃ calls, trace w2 = trace w ++ calls
             ∧ Forall (λ c, isImagesGet c = false) calls.
Proof.
  intros w w1 w2 err parentErr.
  assert (ResolveImageID app dgstUnknown w = (Returned (Err err), w1))
    as Hdirect by (vm_compute; reflexivity).
  assert (resolveUpstreamRef app dgstUnknown w1 = (Returned (Err parentErr), w2))
    as Hparent by (vm_compute; reflexivity).
  repeat (split; [assumption|]).
  destruct (GetImageOfImageStream_fetches_members_only app dgstUnknown err
              parentErr w w1 w2 Hdirect Hparent)
    as (_ & Hcalls & Hheap & _).
  split; [exact Hheap | exact Hcalls].
Defined.

Lemma getStoredImageOfImageStream_stored_witness :
  let w := start cluster in
  let run := getStoredImageOfImageStream app dgstApp w in
  let event := tagEvent 20 "quay.example/team/app@sha256:aaa" dgstApp in
  cacheInHeap w
  ∧ run = (Returned (Ok (0%nat, event)), snd run)
  ∧ imageCache (snd run) !! dgstApp = Some 0%nat
  ∧ ∃ stored, heap (snd run) !! 0%nat = Some stored.
Proof.
  intros w run event.
  assert (run = (Returned (Ok (0%nat, event)), snd run)) as Hrun
    by (vm_compute; reflexivity).
  split; [apply cacheInHeap_start|]. split; [exact Hrun|].
  destruct (getStoredImageOfImageStream_stored app dgstApp 0%nat event w
              (snd run) (cacheInHeap_start cluster) Hrun)
    as (Hcache & stored & Hstored & _).
  split; [exact Hcache|]. by exists stored.
Defined.

Lemma Exists_outcomes_witness :
  let w := start noStream in
  let run := Exists app w in
  run = (Returned (Ok false), snd run)
  ∧ ∃ rErr, imageStreamGetter_get app w = (Returned (Err rErr), snd run)
            ∧ rerrors.Code rErr = ErrImageStreamGetterNotFoundCode.
Proof.
  intros w run.
  assert (run = (Returned (Ok false), snd run)) as Hrun
    by (vm_compute; reflexivity).
  split; [exact Hrun|].
  destruct (Exists_outcomes app (Returned (Ok false)) w (snd run) Hrun)
    as (_ & _ & Hfalse).
  by apply Hfalse.
Defined.

Lemma CreateImageStreamMapping_seeds_readers_witness :
  let w := start noStream in
  let run := CreateImageStreamMapping app clusterClient "v1" pushed w in
  let calls :=
    [CallImageStreamMappingsCreate "team" (mappingOf app "v1" pushed)
       (Err (notFound "imagestreammappings" "app"));
     CallImageStreamsCreate "team" (provisionedStream app)
       (Ok (provisionedStream app));
     CallImageStreamMappingsCreate "team" (mappingOf app "v1" pushed)
       (Ok success)] in
  run = (fst run, snd run)
  ∧ trace (snd run) = trace w ++ calls
  ∧ Exists app (snd run) = (Returned (Ok true), snd run)
  ∧ Tags app (snd run) = (Returned (Ok ∅), snd run).
Proof.
  intros w run calls.
  assert (trace (snd run) = trace w ++ calls) as Htrace
    by (vm_compute; reflexivity).
  split; [apply surjective_pairing|]. split; [exact Htrace|].
  destruct (CreateImageStreamMapping_seeds_readers app clusterClient "v1" pushed
              w (fst run) (snd run) calls "team" (provisionedStream app)
              (Ok (provisionedStream app)) (surjective_pairing run) Htrace)
    as (_ & Hexists & Htags).
  - apply elem_of_cons. right. apply list_elem_of_here.
  - reflexivity.
  - by split.
Defined.

Lemma CreateImageStreamMapping_last_call_witness :
  let w := start noQuota in
  let run := CreateImageStreamMapping app clusterClient "v1" pushed w in
  run = (fst run, snd run)
  ∧ ∃ calls final, trace (snd run) = trace w ++ calls
                   ∧ last calls = Some final.
Proof.
  intros w run. split; [apply surjective_pairing|].
  destruct (CreateImageStreamMapping_last_call app clusterClient "v1" pushed w
              (fst run) (snd run) (surjective_pairing run))
    as (calls & final & Htrace & Hlast & _).
  by exists calls, final.
Defined.

Lemma CreateImageStreamMapping_panics_without_details_witness :
  let w := start noStream in
  let status := Status.Build "not found" "NotFound" None StatusNotFound in
  client.ImageStreamMappings_Create (registryOSClient bareApp)
    (namespace bareApp) (mappingOf bareApp "v1" pushed) (controlPlane w)
  = (Err (StatusError status), noStream)
  ∧ IsErrorQuotaExceeded (StatusError status) = false
  ∧ IsNotFound (StatusError status) = true
  ∧ Status.Details status = None
  ∧ ∃ w', CreateImageStreamMapping bareApp clusterClient "v1" pushed w
          = (Panicked, w').
Proof.
  intros w status.
  assert (client.ImageStreamMappings_Create (registryOSClient bareApp)
            (namespace bareApp) (mappingOf bareApp "v1" pushed) (controlPlane w)
          = (Err (StatusError status), noStream)) as Hfirst by reflexivity.
  assert (IsErrorQuotaExceeded (StatusError status) = false) as Hquota
    by (vm_compute; reflexivity).
  assert (IsNotFound (StatusError status) = true) as Hnotfound
    by (vm_compute; reflexivity).
  repeat (split; [assumption || reflexivity|]).
  destruct (CreateImageStreamMapping_panics_without_details bareApp
              clusterClient "v1" pushed w status noStream Hfirst Hquota
              Hnotfound eq_refl) as (w' & Hrun & _).
  by exists w'.
Defined.

Lemma CreateImageStreamMapping_refused_provisioning_witness :
  let w := start noStream in
  let run := CreateImageStreamMapping app readOnlyClient "v1" pushed w in
  let calls :=
    [CallImageStreamMappingsCreate "team" (mappingOf app "v1" pushed)
       (Err (notFound "imagestreammappings" "app"));
     CallImageStreamsCreate "team" (provisionedStream app)
       (Err (forbidden "imagestreams"))] in
  run = (fst run, snd run)
  ∧ trace (snd run) = trace w ++ calls
  ∧ ∃ rerr, fst run = Returned (Some rerr)
            ∧ rerrors.Code rerr = "ImageStream:Forbidden".
Proof.
  intros w run calls.
  assert (trace (snd run) = trace w ++ calls) as Htrace
    by (vm_compute; reflexivity).
  split; [apply surjective_pairing|]. split; [exact Htrace|].
  destruct (CreateImageStreamMapping_refused_provisioning app readOnlyClient
              "v1" pushed w (fst run) (snd run) calls "team"
              (provisionedStream app) (forbidden "imagestreams")
              (surjective_pairing run) Htrace)
    as (rerr & first & Hout & _ & Hcode & _).
  - apply elem_of_cons. right. apply list_elem_of_here.
  - reflexivity.
  - reflexivity.
  - exists rerr. split; [exact Hout|]. rewrite Hcode. reflexivity.
Defined.

Lemma localRegistry_names_witness :
  let w := start publicCluster in
  let w1 := snd (imageStreamGetter_get app w) in
  imageStreamGetter_get app w = (Returned (Ok publicStream), w1)
  ∧ localRegistry app w
    = (Returned (Ok ["registry.local:5000"; "registry.local:5000"]), w1).
Proof.
  intros w w1.
  assert (imageStreamGetter_get app w = (Returned (Ok publicStream), w1))
    as Hget by (vm_compute; reflexivity).
  split; [exact Hget|].
  destruct (localRegistry_names app publicStream w w1 Hget)
    as (names & Hrun & _ & _ & _ & Hboth & _).
  rewrite Hrun. rewrite Hboth; [reflexivity | | |]; vm_compute; discriminate.
Defined.

Lemma GetLimitRangeList_cached_witness :
  let l := mkListing cluster ({[ "team" := LimitRangeListObject limits ]}
                              : gmap string Object) [] in
  ProjectObjectListStore.Get mapStore (namespace app) (store l)
  = ((Some (LimitRangeListObject limits), true, None), store l)
  ∧ GetLimitRangeList app listLimitRanges (Some mapStore) l
    = (Returned (Ok limits), l).
Proof.
  intros l.
  assert (ProjectObjectListStore.Get mapStore (namespace app) (store l)
          = ((Some (LimitRangeListObject limits), true, None), store l))
    as Hget by (vm_compute; reflexivity).
  split; [exact Hget|].
  destruct (GetLimitRangeList_cached app listLimitRanges mapStore l _ _ _ Hget)
    as (out & Hrun & ->).
  exact Hrun.
Defined.

Lemma GetLimitRangeList_lists_witness :
  let l := mkListing cluster (∅ : gmap string Object) [] in
  cachedObject app (Some mapStore) l = (None, ∅)
  ∧ listLimitRanges (namespace app) (plane l) = (Ok limits, cluster)
  ∧ GetLimitRangeList app listLimitRanges (Some mapStore) l
    = (Returned (Ok limits),
       mkListing cluster {[ "team" := LimitRangeListObject limits ]}
         [CallLimitRangesList "team" (Ok limits)]).
Proof.
  intros l.
  assert (cachedObject app (Some mapStore) l = (None, ∅)) as Hmiss
    by (vm_compute; reflexivity).
  assert (listLimitRanges (namespace app) (plane l)
          = (Ok limits, cluster)) as Hlist by (vm_compute; reflexivity).
  repeat (split; [assumption|]).
  rewrite (GetLimitRangeList_lists app listLimitRanges (Some mapStore) l ∅
             (Ok limits) cluster Hmiss Hlist).
  reflexivity.
Defined.

Lemma mapStore_gives_back ns obj (s s' : gmap string Object) err :
  ProjectObjectListStore.Add mapStore ns obj s = (err, s') →
  ProjectObjectListStore.Get mapStore ns s' = ((Some obj, true, None), s').
Proof.
  simpl. intros [= _ <-]. rewrite lookup_insert_eq.
  by rewrite bool_decide_eq_true_2.
Qed.

Lemma GetLimitRangeList_twice_witness :
  let l := mkListing cluster (∅ : gmap string Object) [] in
  let l1 := snd (GetLimitRangeList app listLimitRanges (Some mapStore) l) in
  cachedObject app (Some mapStore) l = (None, ∅)
  ∧ GetLimitRangeList app listLimitRanges (Some mapStore) l
    = (Returned (Ok limits), l1)
  ∧ GetLimitRangeList app listLimitRanges (Some mapStore) l1
    = (Returned (Ok limits), l1).
Proof.
  intros l l1.
  assert (cachedObject app (Some mapStore) l = (None, ∅)) as Hmiss
    by (vm_compute; reflexivity).
  assert (GetLimitRangeList app listLimitRanges (Some mapStore) l
          = (Returned (Ok limits), l1)) as Hrun by (vm_compute; reflexivity).
  repeat (split; [assumption|]).
  apply (proj1 (GetLimitRangeList_twice app listLimitRanges mapStore l limits l1
                  ∅ mapStore_gives_back Hmiss Hrun)).
Defined.
Lemma GetImageOfImageStream_fetches_the_digest_witness :
  let w := start cluster in
  let run := GetImageOfImageStream app dgstChild w in
  run = (fst run, snd run)
  ∧ ∃ calls, trace (snd run) = trace w ++ calls
             ∧ ∀ name r, CallImagesGet name r ∈ calls → name = dgstChild.
Proof.
  intros w run. split; [apply surjective_pairing|].
  exact (GetImageOfImageStream_fetches_the_digest app dgstChild (fst run) w
           (snd run) (surjective_pairing run)).
Defined.
End MoreRuns.
